(** * The gRPC transport of protobuf-ts: call lifecycle, metadata codec and
      error classification

    A shallow embedding of [packages/grpc-transport/src/grpc-transport.ts]:
    [isServiceError], [rpcMetaToGrpc], [grpcMetaToRpc] and the four call
    shapes of [GrpcTransport].

    - JavaScript objects used as dictionaries ([RpcMetadata], the HTTP/2
      header object, the own properties of an error value) are finite maps
      [gmap string _].
    - A function that can throw returns a [Completion]: the value it
      returns or what it threw.  A call shape returns, next to that, the
      list of what it did to the channel before.
    - The listeners that a call shape registers are functions from the
      state of the call to its next state; the state holds the deferred
      results (and the output stream) that the listeners close over, and
      counts the calls of [gCall.cancel()].
    - The classes of the RPC runtime that the transport builds on
      ([Deferred], [RpcOutputStreamController], [RpcError]) are not in the
      sources; they are modelled from the specification.
    - What the transport calls outside the repository is a parameter of
      the development: the key normalisation and the validation of the
      channel's [Metadata.add], and, in the class [Platform], the channel's
      [Metadata.toHttp2Headers], the language's [Number.prototype.toString]
      and the methods that a value brings along itself.  The theorems hold
      for every choice of them; the instances at the end of the
      definitions are what the theorems are tried on. *)

From Stdlib Require Import Ascii.
From Stdlib Require SpecFloat.
From stdpp Require Import gmap strings list fin_maps pretty.

Local Open Scope Z_scope.

(** ** Completions: a result or an exception *)

Inductive Thrown : Type :=
  | Error (message : string)   (* [throw new Error(message)] *)
  | TypeError                  (* a method call on [null], [undefined] or an object without it *)
  | AssertionFailed            (* [assert(false)] of the protobuf runtime *)
  | MetadataRefused.           (* the channel's [Metadata.add] refused a key or a value *)

Inductive Completion (A : Type) : Type :=
  | Returned (a : A)
  | Threw (t : Thrown).
Arguments Returned {A} a.
Arguments Threw {A} t.

#[export] Instance Completion_ret : MRet Completion := λ A a, Returned a.
#[export] Instance Completion_bind : MBind Completion := λ A B f c,
  match c with
  | Returned a => f a
  | Threw t => Threw t
  end.

(** ** Metadata *)

(** [RpcMetadata] of the RPC runtime: [{ [key: string]: string | string[] }],
    by its own properties. *)
Inductive RpcMetadataValue : Type :=
  | Single (s : string)
  | Many (l : list string).

Abbreviation RpcMetadata := (gmap string RpcMetadataValue).

(** A value of Node's [OutgoingHttpHeaders]:
    [number | string | string[] | undefined].  The numbers are those of
    the language, whose type is left to the [Platform] below. *)
Inductive HeaderValue (number : Type) : Type :=
  | HUndefined
  | HNumber (n : number)
  | HString (s : string)
  | HArray (l : list string).
Arguments HUndefined {number}.
Arguments HNumber {number} n.
Arguments HString {number} s.
Arguments HArray {number} l.

(** The channel library's [Metadata] (it is not part of this repository):
    a map from header name to the string values added under that name, in
    the order they were added, and the options the object was built
    with. *)
Record Metadata : Type := mkMetadata {
  internalRepr : gmap string (list string);
  idempotentRequest : option bool
}.

(** [new Metadata()] and [new Metadata({idempotentRequest: b})]. *)
Definition new_Metadata (opt : option bool) : Metadata :=
  {| internalRepr := ∅; idempotentRequest := opt |}.

(** ** JavaScript values, as far as the error classifier looks at them *)

(** An object has own properties and a prototype, from which reading a
    property inherits.  [JsMetadata] is an instance of the channel's
    [Metadata] class.  [JsHasOwnProperty] is the function
    [Object.prototype.hasOwnProperty]; [JsFunction] is any other function,
    and what a call of it does is left to the [Platform] below.  A number
    is a double, given by its IEEE 754 decomposition: a signed zero, a
    signed infinity, [NaN], or sign, mantissa [m] and exponent [e] of the
    value [m * 2 ^ e].  The type has values beyond the 64-bit doubles;
    what is proved holds for them as well. *)
#[warnings="-register-all"]
Inductive JsValue : Type :=
  | JsUndefined
  | JsNull
  | JsBoolean (b : bool)
  | JsNumber (n : SpecFloat.spec_float)
  | JsString (s : string)
  | JsFunction
  | JsHasOwnProperty
  | JsMetadata (m : Metadata)
  | JsObject (own : gmap string JsValue) (proto : JsValue).

(** [Object.prototype], the end of the prototype chain of an ordinary
    object: of its members, the one that the transport calls.  An object
    made by [Object.create(null)] has [JsNull] for its prototype
    instead. *)
Definition Object_prototype : JsValue :=
  JsObject {[ "hasOwnProperty" := JsHasOwnProperty ]} JsNull.

(** The number that is the integer [z]. *)
Definition Number_of (z : Z) : SpecFloat.spec_float :=
  match z with
  | 0 => SpecFloat.S754_zero false
  | Z.pos m => SpecFloat.S754_finite false m 0
  | Z.neg m => SpecFloat.S754_finite true m 0
  end.

(** [typeof v]. *)
Definition typeof (v : JsValue) : string :=
  match v with
  | JsUndefined => "undefined"
  | JsNull => "object"
  | JsBoolean _ => "boolean"
  | JsNumber _ => "number"
  | JsString _ => "string"
  | JsFunction | JsHasOwnProperty => "function"
  | JsMetadata _ => "object"
  | JsObject _ _ => "object"
  end.

(** [!v] is [negb (truthy v)]: zero, [NaN], the empty string, [null],
    [undefined] and [false] are falsy. *)
Definition truthy (v : JsValue) : bool :=
  match v with
  | JsUndefined | JsNull => false
  | JsBoolean b => b
  | JsNumber (SpecFloat.S754_zero _) | JsNumber SpecFloat.S754_nan => false
  | JsNumber _ => true
  | JsString s => negb (String.eqb s "")
  | JsFunction | JsHasOwnProperty | JsMetadata _ | JsObject _ _ => true
  end.

(** [v.p] on a value that is neither [null] nor [undefined]: an own
    property first, then the prototype chain.  Of a [Metadata] instance
    the transport reads [hasOwnProperty], which it inherits from
    [Object.prototype] through its class, the method [toHttp2Headers] of
    the class, and the five names of a service error, none of which it
    has.  Of a primitive value the transport reads [message] and
    [toHttp2Headers] only, and it has neither. *)
Fixpoint get (v : JsValue) (p : string) : JsValue :=
  match v with
  | JsObject own proto =>
      match own !! p with
      | Some x => x
      | None => get proto p
      end
  | JsMetadata _ =>
      if String.eqb p "hasOwnProperty" then JsHasOwnProperty
      else if String.eqb p "toHttp2Headers" then JsFunction
      else JsUndefined
  | _ => JsUndefined
  end.

(** [v.p] in general: on [null] and [undefined] it throws. *)
Definition property (v : JsValue) (p : string) : Completion JsValue :=
  match v with
  | JsUndefined | JsNull => Threw TypeError
  | _ => Returned (get v p)
  end.

(** An own property of an object; of a [Metadata] instance, which keeps
    its fields under other names, none of those asked for here. *)
Definition ownProperty (v : JsValue) (p : string) : option JsValue :=
  match v with
  | JsObject own _ => own !! p
  | _ => None
  end.

(** [rp.every(f)]: the elements are tried in order, the first falsy
    answer ends the loop, and what [f] throws is thrown on. *)
Fixpoint every {A : Type} (f : A → Completion bool) (l : list A) : Completion bool :=
  match l with
  | [] => Returned true
  | x :: l => b ← f x; if b : bool then every f l else Returned false
  end.

(** ** What the transport is run on *)

(** The functions that the transport calls and that neither the
    repository nor the model defines:
    - the numbers that a header can hold, which are doubles, and
      [Number.prototype.toString()] on them;
    - [toHttp2Headers()] of the channel's [Metadata] class, which differs
      between versions of the library;
    - a method [hasOwnProperty] other than that of [Object.prototype],
      called as [arg.hasOwnProperty(p)] on the value [arg] it was found
      on: whether its answer is truthy, or what it throws;
    - a method [toHttp2Headers] found on a value [from] that is no
      instance of [Metadata], called as [from.toHttp2Headers()]: the
      header object it returns, or what it throws. *)
Class Platform : Type := {
  number : Type;
  Number_toString : number → string;
  toHttp2Headers : Metadata → gmap string (HeaderValue number);
  foreign_hasOwnProperty : JsValue → string → Completion bool;
  foreign_toHttp2Headers : JsValue → Completion (gmap string (HeaderValue number))
}.

Section Codec.
Context `{platform : Platform}.

(** [Metadata.add] normalises the key it is given and validates key and
    value before it stores them; it throws when validation fails.  Both
    steps belong to the channel library and are taken as parameters. *)
Variable normalizeKey : string → string.
Variable validate : string → string → bool.

(** [Metadata.add(key, value)]: the value is appended to the values
    already stored under the normalised key. *)
Definition Metadata_add (key value : string) (m : Metadata) : Completion Metadata :=
  let key := normalizeKey key in
  if validate key value then
    Returned {| internalRepr :=
                  <[key := default [] (internalRepr m !! key) ++ [value]]> (internalRepr m);
                idempotentRequest := idempotentRequest m |}
  else Threw MetadataRefused.

(** The body of the loop of [rpcMetaToGrpc] for one key. *)
Definition rpcMetaToGrpc_entry (k : string) (v : RpcMetadataValue) (to : Metadata)
  : Completion Metadata :=
  match v with
  | Single s => Metadata_add k s to
  | Many l => foldl (λ acc vv, to' ← acc; Metadata_add k vv to') (Returned to) l
  end.

(** [rpcMetaToGrpc(from, base?)].  The keys of [from] are visited in the
    enumeration order of the map. *)
Definition rpcMetaToGrpc (from : RpcMetadata) (base : option Metadata)
  : Completion Metadata :=
  let to := default (new_Metadata None) base in
  map_fold (λ k v acc, to' ← acc; rpcMetaToGrpc_entry k v to') (Returned to) from.

(** What one HTTP/2 header value becomes in [grpcMetaToRpc]:
    [undefined] is skipped, a number is printed. *)
Definition grpcMetaToRpc_value (v : HeaderValue number) : option RpcMetadataValue :=
  match v with
  | HUndefined => None
  | HNumber n => Some (Single (Number_toString n))
  | HString s => Some (Single s)
  | HArray l => Some (Many l)
  end.

(** [meta[k] = v] on the object that [grpcMetaToRpc] made with [{}]: it
    creates or overwrites the own property [k], except under the name
    [__proto__], where the assignment goes to the setter that
    [Object.prototype] has for this name; that setter changes the
    prototype of [meta] when [v] is an array, does nothing when [v] is a
    string, and creates no property in either case. *)
Definition assign (k : string) (v : RpcMetadataValue) (meta : RpcMetadata) : RpcMetadata :=
  if String.eqb k "__proto__" then meta else <[k := v]> meta.

(** The loop of [grpcMetaToRpc] over the header object [h2]. *)
Definition grpcMetaToRpc_headers (h2 : gmap string (HeaderValue number)) : RpcMetadata :=
  map_fold (λ k v meta,
              match grpcMetaToRpc_value v with
              | None => meta
              | Some v' => assign k v' meta
              end) ∅ h2.

(** [grpcMetaToRpc(from)]. *)
Definition grpcMetaToRpc (from : Metadata) : RpcMetadata :=
  let h2 := toHttp2Headers from in
  grpcMetaToRpc_headers h2.

(** Encoding and decoding again. *)
Definition roundTrip (from : RpcMetadata) : Completion RpcMetadata :=
  to ← rpcMetaToGrpc from None; mret (grpcMetaToRpc to).

(** The strings of a metadata value. *)
Definition valuesOf (v : RpcMetadataValue) : list string :=
  match v with
  | Single s => [s]
  | Many l => l
  end.

(** The strings of a header value that holds strings. *)
Definition headerStrings (v : HeaderValue number) : option (list string) :=
  match v with
  | HString s => Some [s]
  | HArray l => Some l
  | HUndefined | HNumber _ => None
  end.

(** What the versions of the channel library have in common in
    [toHttp2Headers], for the names and values that [Metadata.add] lets
    in: the object returned has a property for each stored name and for no
    other, and the property holds the strings stored under the name, in
    their order.  How it holds them is the library's choice [render]: as
    an array, or, where there is one string, as that string itself.
    Nothing is asked for the name [__proto__], which an assignment to a
    plain object loses, nor for names that validation refuses (the
    library leaves out names that begin with a colon). *)
Definition rendersStoredValues (render : string → list string → HeaderValue number)
  : Prop :=
  (∀ k l, l ≠ [] → headerStrings (render k l) = Some l)
  ∧ ∀ (m : Metadata) (k : string), k ≠ "__proto__"%string →
      match internalRepr m !! k with
      | None => toHttp2Headers m !! k = None
      | Some l => l ≠ [] → Forall (λ s, validate k s = true) l →
                  toHttp2Headers m !! k = Some (render k l)
      end.

(** The mappings that the channel stores as they are: every key is in
    normal form and every key/value pair passes validation. *)
Definition accepted (from : RpcMetadata) : Prop :=
  map_Forall (λ k v, normalizeKey k = k
                     ∧ Forall (λ s, validate k s = true) (valuesOf v)) from.

(** The domain of the round-trip property of the specification: every
    value is a string or a non-empty collection of strings. *)
Definition stringsOrNonEmpty (from : RpcMetadata) : Prop :=
  map_Forall (λ _ v, valuesOf v ≠ []) from.

(** A mapping in which every value is the collection of its strings. *)
Definition asCollections (from : RpcMetadata) : RpcMetadata :=
  (λ v, Many (valuesOf v)) <$> from.

End Codec.

#[export] Instance accepted_dec normalizeKey validate from :
  Decision (accepted normalizeKey validate from).
Proof. unfold accepted. apply _. Defined.

#[export] Instance stringsOrNonEmpty_dec from : Decision (stringsOrNonEmpty from).
Proof. unfold stringsOrNonEmpty. apply _. Defined.

(** ** The error classifier *)

Section Classifier.
Context `{platform : Platform}.

(** [arg.hasOwnProperty(p)] on an object [arg]: the method is read from
    the value like any property, so it is the function of
    [Object.prototype] only where the prototype chain leads there and
    nothing on the way has a property of this name.  Calling what is not
    a function throws a [TypeError]. *)
Definition hasOwnProperty (arg : JsValue) (p : string) : Completion bool :=
  match get arg "hasOwnProperty" with
  | JsHasOwnProperty => Returned (bool_decide (is_Some (ownProperty arg p)))
  | JsFunction => foreign_hasOwnProperty arg p
  | _ => Threw TypeError
  end.

(** [isServiceError(arg)]. *)
Definition isServiceError (arg : JsValue) : Completion bool :=
  if negb (String.eqb (typeof arg) "object") || negb (truthy arg) then Returned false
  else
    let rp := ["code"; "details"; "metadata"; "name"; "message"]%string in
    all ← every (λ p, hasOwnProperty arg p) rp;
    if negb all then Returned false
    else
      Returned (String.eqb (typeof (get arg "code")) "number"
                && String.eqb (typeof (get arg "details")) "string"
                && String.eqb (typeof (get arg "metadata")) "object"
                && String.eqb (typeof (get arg "name")) "string"
                && String.eqb (typeof (get arg "message")) "string").

End Classifier.

(** The values on which [arg.hasOwnProperty] is the function of
    [Object.prototype]: ordinary objects, instances of [Error] among
    them, that do not override it. *)
Definition inheritsHasOwnProperty (arg : JsValue) : Prop :=
  get arg "hasOwnProperty" = JsHasOwnProperty.

(** The shape of a service error in the words of the specification: a
    non-null object with the own properties [code] (a number), [details]
    (a string), [metadata] (an object, as [typeof] has it), [name] (a
    string) and [message] (a string). *)
Definition serviceErrorShape (arg : JsValue) : Prop :=
  typeof arg = "object" ∧ arg ≠ JsNull
  ∧ ∃ code details metadata name message,
      ownProperty arg "code" = Some code ∧ typeof code = "number"
      ∧ ownProperty arg "details" = Some details ∧ typeof details = "string"
      ∧ ownProperty arg "metadata" = Some metadata ∧ typeof metadata = "object"
      ∧ ownProperty arg "name" = Some name ∧ typeof name = "string"
      ∧ ownProperty arg "message" = Some message ∧ typeof message = "string".

(** ** Status codes and errors *)

(** The [status] enumeration of the channel library, read as the source
    reads it: [GrpcStatus[code]] is the name of a numeric code, and
    [undefined] for a number that is no code. *)
Module GrpcStatus.
Definition OK : Z := 0.
Definition DATA_LOSS : Z := 15.

Definition name (code : Z) : option string :=
  match code with
  | 0 => Some "OK"
  | 1 => Some "CANCELLED"
  | 2 => Some "UNKNOWN"
  | 3 => Some "INVALID_ARGUMENT"
  | 4 => Some "DEADLINE_EXCEEDED"
  | 5 => Some "NOT_FOUND"
  | 6 => Some "ALREADY_EXISTS"
  | 7 => Some "PERMISSION_DENIED"
  | 8 => Some "RESOURCE_EXHAUSTED"
  | 9 => Some "FAILED_PRECONDITION"
  | 10 => Some "ABORTED"
  | 11 => Some "OUT_OF_RANGE"
  | 12 => Some "UNIMPLEMENTED"
  | 13 => Some "INTERNAL"
  | 14 => Some "UNAVAILABLE"
  | 15 => Some "DATA_LOSS"
  | 16 => Some "UNAUTHENTICATED"
  | _ => None
  end%string.

(** The integer that a number is, when it is one and is not negative. *)
Definition integerOf (n : SpecFloat.spec_float) : option Z :=
  match n with
  | SpecFloat.S754_zero _ => Some 0
  | SpecFloat.S754_finite false m e =>
      if 0 <=? e then Some (Z.pos m * 2 ^ e)
      else if Z.pos m mod 2 ^ (- e) =? 0 then Some (Z.pos m / 2 ^ (- e))
      else None
  | _ => None
  end.

(** [GrpcStatus[n]] for a number [n].  As a property key a number stands
    for the string that prints it, which for the integers from 0 to 16
    (negative zero among them) is the decimal string that names a member,
    and for no other number is the name of one. *)
Definition at_number (n : SpecFloat.spec_float) : option string :=
  code ← integerOf n; name code.
End GrpcStatus.

(** The channel's [StatusObject], the argument of the [status] event. *)
Module StatusObject.
Record t : Type := mk { code : Z; details : string; metadata : Metadata }.
End StatusObject.

(** The channel's [ServiceError], as the completion callback is typed. *)
Module ServiceError.
Record t : Type := mk {
  code : Z; details : string; metadata : Metadata; name : string; message : string
}.
End ServiceError.

(** [RpcStatus] of the RPC runtime. *)
Module RpcStatus.
Record t : Type := mk { code : option string; detail : string }.
End RpcStatus.

(** Modelled from the spec: the [RpcError] class of the RPC runtime, which
    is absent from the sources: an error that carries a message, the name
    of a status code and metadata.  It is recorded by the arguments its
    constructor is called with; an argument that is left out or
    [undefined] is [None]. *)
Module RpcError.
Record t : Type := mk {
  message : JsValue; code : option string; meta : option RpcMetadata
}.
End RpcError.

(** ** Deferred results *)

(** [DeferredState] of the RPC runtime. *)
Inductive DeferredState : Type :=
  | PENDING
  | REJECTED
  | RESOLVED.

#[export] Instance DeferredState_eq_dec : EqDecision DeferredState.
Proof. solve_decision. Defined.

(** Modelled from the spec: the [Deferred] class of the RPC runtime, which
    is absent from the sources.  A deferred result is pending, resolved
    with a value or rejected with an error; it leaves the pending state at
    most once, and every later attempt to settle it, by [resolve] and
    [reject] as by [resolvePending] and [rejectPending], is ignored. *)
Inductive Deferred (T : Type) : Type :=
  | Pending
  | Resolved (value : T)
  | Rejected (reason : RpcError.t).
Arguments Pending {T}.
Arguments Resolved {T} value.
Arguments Rejected {T} reason.

Section Deferred.
Context {T : Type}.

(** Modelled from the spec: the getter [state] of [Deferred]. *)
Definition state (d : Deferred T) : DeferredState :=
  match d with
  | Pending => PENDING
  | Resolved _ => RESOLVED
  | Rejected _ => REJECTED
  end.

Definition isPending (d : Deferred T) : bool :=
  match d with
  | Pending => true
  | _ => false
  end.

(** Modelled from the spec: [resolvePending] of [Deferred], a no-op when
    the result is settled already. *)
Definition resolvePending (value : T) (d : Deferred T) : Deferred T :=
  if isPending d then Resolved value else d.

(** Modelled from the spec: [rejectPending] of [Deferred], a no-op when
    the result is settled already. *)
Definition rejectPending (reason : RpcError.t) (d : Deferred T) : Deferred T :=
  if isPending d then Rejected reason else d.

(** Modelled from the spec: [resolve] of [Deferred].  It settles a pending
    result; on a settled one the specification has the attempt silently
    ignored. *)
Definition resolve (value : T) (d : Deferred T) : Deferred T :=
  resolvePending value d.

(** Modelled from the spec: [reject] of [Deferred], as [resolve]. *)
Definition reject (reason : RpcError.t) (d : Deferred T) : Deferred T :=
  rejectPending reason d.

(** A deferred result that has left the pending state. *)
Definition settled (d : Deferred T) : Prop := state d ≠ PENDING.

(** What a settle-if-pending step does to a deferred result: it takes the
    outcome when it was pending and stays as it was otherwise. *)
Definition settlesWith (outcome before after : Deferred T) : Prop :=
  (state before = PENDING → after = outcome)
  ∧ (state before ≠ PENDING → after = before).
End Deferred.

(** ** The output stream of a server-streaming call *)

(** Modelled from the spec: the three states of the stream. *)
Inductive Closed : Type :=
  | StillOpen
  | Completed
  | Failed (error : RpcError.t).

(** Modelled from the spec: the [RpcOutputStreamController] of the RPC
    runtime, which is absent from the sources.  It holds the messages
    pushed so far and is open, closed normally or closed with an error;
    once it is closed, every further notification is ignored. *)
Record RpcOutputStreamController (T : Type) : Type := mkStream {
  pushed : list T;
  closedWith : Closed
}.
Arguments mkStream {T} pushed closedWith.
Arguments pushed {T} _.
Arguments closedWith {T} _.

Section Stream.
Context {T : Type}.

(** Modelled from the spec: a new controller is open and has no message. *)
Definition new_RpcOutputStreamController : RpcOutputStreamController T :=
  mkStream [] StillOpen.

(** Modelled from the spec: the getter [closed]. *)
Definition closed (s : RpcOutputStreamController T) : bool :=
  match closedWith s with
  | StillOpen => false
  | _ => true
  end.

(** Modelled from the spec: [notifyMessage] pushes a message to an open
    stream and is ignored by a closed one. *)
Definition notifyMessage (message : T) (s : RpcOutputStreamController T)
  : RpcOutputStreamController T :=
  if closed s then s else mkStream (pushed s ++ [message]) StillOpen.

(** Modelled from the spec: [notifyError] closes an open stream with the
    error and is ignored by a closed one. *)
Definition notifyError (error : RpcError.t) (s : RpcOutputStreamController T)
  : RpcOutputStreamController T :=
  if closed s then s else mkStream (pushed s) (Failed error).

(** Modelled from the spec: [notifyComplete] closes an open stream
    normally and is ignored by a closed one. *)
Definition notifyComplete (s : RpcOutputStreamController T)
  : RpcOutputStreamController T :=
  if closed s then s else mkStream (pushed s) Completed.
End Stream.

(** ** The inputs of a call *)

(** [MethodInfo<I, O>]: service and method name, the idempotency marker
    and the type guard [method.O.is] of the output message type. *)
Module MethodInfo.
Record t (I O : Type) : Type := mk {
  service_typeName : string;
  name : string;
  idempotency : option string;
  O_is : O → bool
}.
Arguments mk {I O} _ _ _ _.
Arguments service_typeName {I O} _.
Arguments name {I O} _.
Arguments idempotency {I O} _.
Arguments O_is {I O} _ _.
End MethodInfo.

(** An [AbortSignal]: the flag says whether it has fired already. *)
Record AbortSignal : Type := mkAbortSignal { aborted : bool }.

(** [GrpcOptions], the fields that the transport reads itself; the
    credentials, the client options and the binary options are handed on
    to the channel and to the message types. *)
Module GrpcOptions.
Record t : Type := mk {
  host : string;
  meta : option RpcMetadata;
  abort : option AbortSignal
}.
End GrpcOptions.

(** What a call shape does to the outside while it sets a call up. *)
Inductive ChannelAction (I : Type) : Type :=
  | NewClient (host : string)
  | MakeUnaryRequest (path : string) (input : I) (gMeta : Metadata)
  | MakeServerStreamRequest (path : string) (input : I) (gMeta : Metadata)
  | MakeClientStreamRequest (path : string) (gMeta : Metadata)
  | AbortAddEventListener
  | CallAddListener (event : string).
Arguments NewClient {I} host.
Arguments MakeUnaryRequest {I} path input gMeta.
Arguments MakeServerStreamRequest {I} path input gMeta.
Arguments MakeClientStreamRequest {I} path gMeta.
Arguments AbortAddEventListener {I}.
Arguments CallAddListener {I} event.

(** What reaches the listeners of a call once it is set up: the completion
    callback [(err, value)], the abort event of the signal, and the events
    of the channel call. *)
Inductive ChannelEvent (O : Type) : Type :=
  | Callback (err : option ServiceError.t) (value : option O)
  | AbortEvent
  | MetadataEvent (val : Metadata)
  | StatusEvent (val : StatusObject.t)
  | ErrorEvent (err : JsValue)
  | EndEvent
  | DataEvent (arg1 : O).
Arguments Callback {O} err value.
Arguments AbortEvent {O}.
Arguments MetadataEvent {O} val.
Arguments StatusEvent {O} val.
Arguments ErrorEvent {O} err.
Arguments EndEvent {O}.
Arguments DataEvent {O} arg1.

(** ** The state of a call *)

(** The four deferred results that [unary] creates, whether the abort
    listener was registered, and how often [gCall.cancel()] was called. *)
Module UnaryCall.
Record t (O : Type) : Type := mk {
  defHeader : Deferred RpcMetadata;
  defMessage : Deferred O;
  defStatus : Deferred RpcStatus.t;
  defTrailer : Deferred RpcMetadata;
  abortListener : bool;
  cancelled : nat
}.
Arguments mk {O} _ _ _ _ _ _.
Arguments defHeader {O} _.
Arguments defMessage {O} _.
Arguments defStatus {O} _.
Arguments defTrailer {O} _.
Arguments abortListener {O} _.
Arguments cancelled {O} _.
End UnaryCall.

Module ServerStreamingCall.
Record t (O : Type) : Type := mk {
  defHeader : Deferred RpcMetadata;
  outStream : RpcOutputStreamController O;
  defStatus : Deferred RpcStatus.t;
  defTrailer : Deferred RpcMetadata;
  abortListener : bool;
  cancelled : nat
}.
Arguments mk {O} _ _ _ _ _ _.
Arguments defHeader {O} _.
Arguments outStream {O} _.
Arguments defStatus {O} _.
Arguments defTrailer {O} _.
Arguments abortListener {O} _.
Arguments cancelled {O} _.
End ServerStreamingCall.

Module ClientStreamingCall.
Record t (O : Type) : Type := mk {
  defHeader : Deferred RpcMetadata;
  defMessage : Deferred O;
  defStatus : Deferred RpcStatus.t;
  defTrailer : Deferred RpcMetadata;
  abortListener : bool;
  cancelled : nat
}.
Arguments mk {O} _ _ _ _ _ _.
Arguments defHeader {O} _.
Arguments defMessage {O} _.
Arguments defStatus {O} _.
Arguments defTrailer {O} _.
Arguments abortListener {O} _.
Arguments cancelled {O} _.
End ClientStreamingCall.

(** [DuplexStreamingCall<I, O>] of the RPC runtime; the transport never
    builds one. *)
Inductive DuplexStreamingCall (I O : Type) : Type :=
  | mkDuplexStreamingCall.

(** ** Errors built by the transport *)

Section Errors.
Context `{platform : Platform}.

(** [new RpcError(err.message, GrpcStatus[err.code], grpcMetaToRpc(err.metadata))]
    on a [ServiceError]. *)
Definition rpcErrorOf (err : ServiceError.t) : RpcError.t :=
  RpcError.mk (JsString (ServiceError.message err))
              (GrpcStatus.name (ServiceError.code err))
              (Some (grpcMetaToRpc (ServiceError.metadata err))).

(** [new RpcError('expected error status', GrpcStatus[GrpcStatus.DATA_LOSS])]. *)
Definition expectedErrorStatus : RpcError.t :=
  RpcError.mk (JsString "expected error status") (GrpcStatus.name GrpcStatus.DATA_LOSS) None.

(** [{code: GrpcStatus[val.code], detail: val.details}]. *)
Definition rpcStatusOf (val : StatusObject.t) : RpcStatus.t :=
  RpcStatus.mk (GrpcStatus.name (StatusObject.code val)) (StatusObject.details val).

(** [GrpcStatus[v]] on a JavaScript value that is a number, as the code
    of a value that passed [isServiceError] is. *)
Definition GrpcStatus_at (v : JsValue) : option string :=
  match v with
  | JsNumber n => GrpcStatus.at_number n
  | _ => None
  end.

(** [from.toHttp2Headers()] on a JavaScript value.  On [null] and
    [undefined] the property access throws.  An instance of [Metadata]
    answers with the method of its class.  On any other value the method
    is whatever reading the property finds: a function of the value's own
    making is called; the function of [Object.prototype] that the model
    knows, called without an argument, returns [false], which has no
    keys; and calling what is not a function throws. *)
Definition toHttp2Headers_at (from : JsValue)
  : Completion (gmap string (HeaderValue number)) :=
  match from with
  | JsUndefined | JsNull => Threw TypeError
  | JsMetadata m => Returned (toHttp2Headers m)
  | _ =>
      match get from "toHttp2Headers" with
      | JsFunction => foreign_toHttp2Headers from
      | JsHasOwnProperty => Returned ∅
      | _ => Threw TypeError
      end
  end.

(** [grpcMetaToRpc(v)] on a JavaScript value: the function is typed for a
    [Metadata], and is handed whatever the property [metadata] of the
    error holds. *)
Definition grpcMetaToRpc_at (v : JsValue) : Completion RpcMetadata :=
  h2 ← toHttp2Headers_at v; mret (grpcMetaToRpc_headers h2).

(** The first line of the [error] listener of [serverStreaming]:
    [isServiceError(err) ? new RpcError(err.message, GrpcStatus[err.code],
    grpcMetaToRpc(err.metadata)) : new RpcError(err.message)]. *)
Definition classifyError (err : JsValue) : Completion RpcError.t :=
  service ← isServiceError err;
  if service : bool then
    message ← property err "message";
    code ← property err "code";
    metadata ← property err "metadata";
    meta ← grpcMetaToRpc_at metadata;
    mret (RpcError.mk message (GrpcStatus_at code) (Some meta))
  else
    message ← property err "message";
    mret (RpcError.mk message None None).

End Errors.

(** ** The call shapes of [GrpcTransport] *)

Section Transport.
Context `{platform : Platform}.
Context {I O : Type}.
Variable normalizeKey : string → string.
Variable validate : string → string → bool.

(** [`/${method.service.typeName}/${method.name}`]. *)
Definition methodPath (method : MethodInfo.t I O) : string :=
  "/" +:+ MethodInfo.service_typeName method +:+ "/" +:+ MethodInfo.name method.

(** The constant [gMeta] of each call shape:
    [rpcMetaToGrpc(opt.meta ?? {}, new Metadata({idempotentRequest:
    method.idempotency === "IDEMPOTENT"}))]. *)
Definition gMetaOf (method : MethodInfo.t I O) (opt : GrpcOptions.t) : Completion Metadata :=
  let meta := default ∅ (GrpcOptions.meta opt) in
  rpcMetaToGrpc normalizeKey validate meta
    (Some (new_Metadata
             (Some (bool_decide (MethodInfo.idempotency method = Some "IDEMPOTENT"%string))))).

(** [if (opt.abort) { opt.abort.addEventListener('abort', ...) }]: the
    signal is looked at for being there, its [aborted] flag is not read. *)
Definition registerAbort (opt : GrpcOptions.t) : list (ChannelAction I) :=
  match GrpcOptions.abort opt with
  | Some _ => [AbortAddEventListener]
  | None => []
  end.

Definition hasAbort (opt : GrpcOptions.t) : bool :=
  match GrpcOptions.abort opt with
  | Some _ => true
  | None => false
  end.

(** *** [unary] *)

(** The completion callback [(err, value) => ...] of [makeUnaryRequest]. *)
Definition unary_callback (err : option ServiceError.t) (value : option O)
    (c : UnaryCall.t O) : UnaryCall.t O :=
  let defMessage :=
    match value with
    | Some value => resolve value (UnaryCall.defMessage c)
    | None => UnaryCall.defMessage c
    end in
  match err with
  | Some err =>
      let e := rpcErrorOf err in
      UnaryCall.mk (rejectPending e (UnaryCall.defHeader c))
                   (rejectPending e defMessage)
                   (rejectPending e (UnaryCall.defStatus c))
                   (rejectPending e (UnaryCall.defTrailer c))
                   (UnaryCall.abortListener c) (UnaryCall.cancelled c)
  | None =>
      UnaryCall.mk (UnaryCall.defHeader c) defMessage (UnaryCall.defStatus c)
                   (UnaryCall.defTrailer c)
                   (UnaryCall.abortListener c) (UnaryCall.cancelled c)
  end.

(** The abort listener: [gCall.cancel()]. *)
Definition unary_onAbort (c : UnaryCall.t O) : UnaryCall.t O :=
  UnaryCall.mk (UnaryCall.defHeader c) (UnaryCall.defMessage c) (UnaryCall.defStatus c)
               (UnaryCall.defTrailer c)
               (UnaryCall.abortListener c) (S (UnaryCall.cancelled c)).

(** The listener of [metadata]. *)
Definition unary_onMetadata (val : Metadata) (c : UnaryCall.t O) : UnaryCall.t O :=
  UnaryCall.mk (resolve (grpcMetaToRpc val) (UnaryCall.defHeader c))
               (UnaryCall.defMessage c) (UnaryCall.defStatus c) (UnaryCall.defTrailer c)
               (UnaryCall.abortListener c) (UnaryCall.cancelled c).

(** The listener of [status]. *)
Definition unary_onStatus (val : StatusObject.t) (c : UnaryCall.t O) : UnaryCall.t O :=
  if bool_decide (state (UnaryCall.defMessage c) = PENDING)
     && (StatusObject.code val =? GrpcStatus.OK)
  then
    let e := expectedErrorStatus in
    UnaryCall.mk (UnaryCall.defHeader c)
                 (rejectPending e (UnaryCall.defMessage c))
                 (rejectPending e (UnaryCall.defStatus c))
                 (rejectPending e (UnaryCall.defTrailer c))
                 (UnaryCall.abortListener c) (UnaryCall.cancelled c)
  else
    UnaryCall.mk (UnaryCall.defHeader c)
                 (UnaryCall.defMessage c)
                 (resolvePending (rpcStatusOf val) (UnaryCall.defStatus c))
                 (resolvePending (grpcMetaToRpc (StatusObject.metadata val))
                                 (UnaryCall.defTrailer c))
                 (UnaryCall.abortListener c) (UnaryCall.cancelled c).

(** [unary(method, input, options)]: what it does to the channel, and the
    state of the call it returns; when [rpcMetaToGrpc] throws, nothing has
    been done yet. *)
Definition unary (method : MethodInfo.t I O) (input : I) (options : GrpcOptions.t)
  : list (ChannelAction I) * Completion (UnaryCall.t O) :=
  let opt := options in
  match gMetaOf method opt with
  | Threw t => ([], Threw t)
  | Returned gMeta =>
      ([NewClient (GrpcOptions.host opt);
        MakeUnaryRequest (methodPath method) input gMeta]
       ++ registerAbort opt
       ++ [CallAddListener "metadata"; CallAddListener "status"],
       Returned (UnaryCall.mk Pending Pending Pending Pending (hasAbort opt) 0%nat))
  end.

(** One event reaching a unary call; an event nobody listens to changes
    nothing. *)
Definition unary_deliver (ev : ChannelEvent O) (c : UnaryCall.t O) : UnaryCall.t O :=
  match ev with
  | Callback err value => unary_callback err value c
  | AbortEvent => if UnaryCall.abortListener c then unary_onAbort c else c
  | MetadataEvent val => unary_onMetadata val c
  | StatusEvent val => unary_onStatus val c
  | ErrorEvent _ | EndEvent | DataEvent _ => c
  end.

Definition unary_run (evs : list (ChannelEvent O)) (c : UnaryCall.t O) : UnaryCall.t O :=
  foldl (λ c ev, unary_deliver ev c) c evs.

(** *** [serverStreaming] *)

(** The listener of [error]. *)
Definition serverStreaming_onError (err : JsValue) (c : ServerStreamingCall.t O)
  : Completion (ServerStreamingCall.t O) :=
  e ← classifyError err;
  let outStream :=
    if negb (closed (ServerStreamingCall.outStream c))
    then notifyError e (ServerStreamingCall.outStream c)
    else ServerStreamingCall.outStream c in
  mret (ServerStreamingCall.mk
          (rejectPending e (ServerStreamingCall.defHeader c))
          outStream
          (rejectPending e (ServerStreamingCall.defStatus c))
          (rejectPending e (ServerStreamingCall.defTrailer c))
          (ServerStreamingCall.abortListener c) (ServerStreamingCall.cancelled c)).

(** The listener of [end]. *)
Definition serverStreaming_onEnd (c : ServerStreamingCall.t O) : ServerStreamingCall.t O :=
  let outStream :=
    if negb (closed (ServerStreamingCall.outStream c))
    then notifyComplete (ServerStreamingCall.outStream c)
    else ServerStreamingCall.outStream c in
  ServerStreamingCall.mk (ServerStreamingCall.defHeader c) outStream
                         (ServerStreamingCall.defStatus c) (ServerStreamingCall.defTrailer c)
                         (ServerStreamingCall.abortListener c) (ServerStreamingCall.cancelled c).

(** The listener of [data]: [assert(method.O.is(arg1))], then
    [outStream.notifyMessage(arg1)]. *)
Definition serverStreaming_onData (method : MethodInfo.t I O) (arg1 : O)
    (c : ServerStreamingCall.t O) : Completion (ServerStreamingCall.t O) :=
  if MethodInfo.O_is method arg1 then
    mret (ServerStreamingCall.mk
            (ServerStreamingCall.defHeader c)
            (notifyMessage arg1 (ServerStreamingCall.outStream c))
            (ServerStreamingCall.defStatus c) (ServerStreamingCall.defTrailer c)
            (ServerStreamingCall.abortListener c) (ServerStreamingCall.cancelled c))
  else Threw AssertionFailed.

(** The listener of [metadata]. *)
Definition serverStreaming_onMetadata (val : Metadata) (c : ServerStreamingCall.t O)
  : ServerStreamingCall.t O :=
  ServerStreamingCall.mk (resolve (grpcMetaToRpc val) (ServerStreamingCall.defHeader c))
                         (ServerStreamingCall.outStream c)
                         (ServerStreamingCall.defStatus c) (ServerStreamingCall.defTrailer c)
                         (ServerStreamingCall.abortListener c) (ServerStreamingCall.cancelled c).

(** The listener of [status]. *)
Definition serverStreaming_onStatus (val : StatusObject.t) (c : ServerStreamingCall.t O)
  : ServerStreamingCall.t O :=
  ServerStreamingCall.mk (ServerStreamingCall.defHeader c)
                         (ServerStreamingCall.outStream c)
                         (resolvePending (rpcStatusOf val) (ServerStreamingCall.defStatus c))
                         (resolvePending (grpcMetaToRpc (StatusObject.metadata val))
                                         (ServerStreamingCall.defTrailer c))
                         (ServerStreamingCall.abortListener c) (ServerStreamingCall.cancelled c).

(** The abort listener: [gCall.cancel()]. *)
Definition serverStreaming_onAbort (c : ServerStreamingCall.t O) : ServerStreamingCall.t O :=
  ServerStreamingCall.mk (ServerStreamingCall.defHeader c) (ServerStreamingCall.outStream c)
                         (ServerStreamingCall.defStatus c) (ServerStreamingCall.defTrailer c)
                         (ServerStreamingCall.abortListener c)
                         (S (ServerStreamingCall.cancelled c)).

(** [serverStreaming(method, input, options)]. *)
Definition serverStreaming (method : MethodInfo.t I O) (input : I) (options : GrpcOptions.t)
  : list (ChannelAction I) * Completion (ServerStreamingCall.t O) :=
  let opt := options in
  match gMetaOf method opt with
  | Threw t => ([], Threw t)
  | Returned gMeta =>
      ([NewClient (GrpcOptions.host opt);
        MakeServerStreamRequest (methodPath method) input gMeta]
       ++ registerAbort opt
       ++ [CallAddListener "error"; CallAddListener "end"; CallAddListener "data";
           CallAddListener "metadata"; CallAddListener "status"],
       Returned (ServerStreamingCall.mk Pending new_RpcOutputStreamController Pending Pending
                                        (hasAbort opt) 0%nat))
  end.

(** One event reaching a server-streaming call.  There is no completion
    callback in this shape. *)
Definition serverStreaming_deliver (method : MethodInfo.t I O) (ev : ChannelEvent O)
    (c : ServerStreamingCall.t O) : Completion (ServerStreamingCall.t O) :=
  match ev with
  | Callback _ _ => mret c
  | AbortEvent =>
      mret (if ServerStreamingCall.abortListener c then serverStreaming_onAbort c else c)
  | MetadataEvent val => mret (serverStreaming_onMetadata val c)
  | StatusEvent val => mret (serverStreaming_onStatus val c)
  | ErrorEvent err => serverStreaming_onError err c
  | EndEvent => mret (serverStreaming_onEnd c)
  | DataEvent arg1 => serverStreaming_onData method arg1 c
  end.

(** The state a listener leaves behind.  The two listeners that can throw
    do so on their first statement, before they have changed anything. *)
Definition stateAfter {St : Type} (r : Completion St) (before : St) : St :=
  match r with
  | Returned after => after
  | Threw _ => before
  end.

Definition serverStreaming_run (method : MethodInfo.t I O) (evs : list (ChannelEvent O))
    (c : ServerStreamingCall.t O) : ServerStreamingCall.t O :=
  foldl (λ c ev, stateAfter (serverStreaming_deliver method ev c) c) c evs.

(** *** [clientStreaming] *)

(** The completion callback of [makeClientStreamRequest]. *)
Definition clientStreaming_callback (err : option ServiceError.t) (value : option O)
    (c : ClientStreamingCall.t O) : ClientStreamingCall.t O :=
  let defMessage :=
    match value with
    | Some value => resolve value (ClientStreamingCall.defMessage c)
    | None => ClientStreamingCall.defMessage c
    end in
  match err with
  | Some err =>
      let e := rpcErrorOf err in
      ClientStreamingCall.mk (rejectPending e (ClientStreamingCall.defHeader c))
                             (rejectPending e defMessage)
                             (rejectPending e (ClientStreamingCall.defStatus c))
                             (rejectPending e (ClientStreamingCall.defTrailer c))
                             (ClientStreamingCall.abortListener c)
                             (ClientStreamingCall.cancelled c)
  | None =>
      ClientStreamingCall.mk (ClientStreamingCall.defHeader c) defMessage
                             (ClientStreamingCall.defStatus c)
                             (ClientStreamingCall.defTrailer c)
                             (ClientStreamingCall.abortListener c)
                             (ClientStreamingCall.cancelled c)
  end.

(** The abort listener: [gCall.cancel()]. *)
Definition clientStreaming_onAbort (c : ClientStreamingCall.t O) : ClientStreamingCall.t O :=
  ClientStreamingCall.mk (ClientStreamingCall.defHeader c) (ClientStreamingCall.defMessage c)
                         (ClientStreamingCall.defStatus c) (ClientStreamingCall.defTrailer c)
                         (ClientStreamingCall.abortListener c)
                         (S (ClientStreamingCall.cancelled c)).

(** The listener of [metadata]. *)
Definition clientStreaming_onMetadata (val : Metadata) (c : ClientStreamingCall.t O)
  : ClientStreamingCall.t O :=
  ClientStreamingCall.mk (resolve (grpcMetaToRpc val) (ClientStreamingCall.defHeader c))
                         (ClientStreamingCall.defMessage c)
                         (ClientStreamingCall.defStatus c) (ClientStreamingCall.defTrailer c)
                         (ClientStreamingCall.abortListener c)
                         (ClientStreamingCall.cancelled c).

(** The listener of [status]. *)
Definition clientStreaming_onStatus (val : StatusObject.t) (c : ClientStreamingCall.t O)
  : ClientStreamingCall.t O :=
  ClientStreamingCall.mk (ClientStreamingCall.defHeader c)
                         (ClientStreamingCall.defMessage c)
                         (resolvePending (rpcStatusOf val) (ClientStreamingCall.defStatus c))
                         (resolvePending (grpcMetaToRpc (StatusObject.metadata val))
                                         (ClientStreamingCall.defTrailer c))
                         (ClientStreamingCall.abortListener c)
                         (ClientStreamingCall.cancelled c).

(** [clientStreaming(method, options)]. *)
Definition clientStreaming (method : MethodInfo.t I O) (options : GrpcOptions.t)
  : list (ChannelAction I) * Completion (ClientStreamingCall.t O) :=
  let opt := options in
  match gMetaOf method opt with
  | Threw t => ([], Threw t)
  | Returned gMeta =>
      ([NewClient (GrpcOptions.host opt);
        MakeClientStreamRequest (methodPath method) gMeta]
       ++ registerAbort opt
       ++ [CallAddListener "metadata"; CallAddListener "status"],
       Returned (ClientStreamingCall.mk Pending Pending Pending Pending (hasAbort opt) 0%nat))
  end.

Definition clientStreaming_deliver (ev : ChannelEvent O) (c : ClientStreamingCall.t O)
  : ClientStreamingCall.t O :=
  match ev with
  | Callback err value => clientStreaming_callback err value c
  | AbortEvent => if ClientStreamingCall.abortListener c then clientStreaming_onAbort c else c
  | MetadataEvent val => clientStreaming_onMetadata val c
  | StatusEvent val => clientStreaming_onStatus val c
  | ErrorEvent _ | EndEvent | DataEvent _ => c
  end.

Definition clientStreaming_run (evs : list (ChannelEvent O)) (c : ClientStreamingCall.t O)
  : ClientStreamingCall.t O :=
  foldl (λ c ev, clientStreaming_deliver ev c) c evs.

(** *** [duplex] *)

(** [duplex(method, options)]: [throw new Error("NOT IMPLEMENTED")]. *)
Definition duplex (method : MethodInfo.t I O) (options : GrpcOptions.t)
  : list (ChannelAction I) * Completion (DuplexStreamingCall I O) :=
  ([], Threw (Error "NOT IMPLEMENTED")).

End Transport.

(** ** The events of a history *)

Definition isAbortEvent {O : Type} (ev : ChannelEvent O) : bool :=
  match ev with
  | AbortEvent => true
  | _ => false
  end.

(** The events that can settle something: all but the abort event, which
    calls [cancel], and the data event, which pushes a message. *)
Definition isSettlingEvent {O : Type} (ev : ChannelEvent O) : bool :=
  match ev with
  | AbortEvent | DataEvent _ => false
  | _ => true
  end.

Definition isCallback {O : Type} (ev : ChannelEvent O) : bool :=
  match ev with
  | Callback _ _ => true
  | _ => false
  end.

Definition isStatusEvent {O : Type} (ev : ChannelEvent O) : bool :=
  match ev with
  | StatusEvent _ => true
  | _ => false
  end.

(** How often the abort event fires in a history. *)
Definition abortsIn {O : Type} (evs : list (ChannelEvent O)) : nat :=
  length (List.filter isAbortEvent evs).

(** ** The rules of the channel for header names and values

    The channel library lower-cases a header name, and it accepts a name
    made of digits, lower-case letters, [_], [.] and [-] that does not end
    in [-bin] (such a name wants a binary value) together with a value of
    printable ASCII characters.  These instances are what the theorems
    below are tried on; the theorems themselves hold for every choice. *)

Definition toLowerCase_ascii (a : ascii) : ascii :=
  let n := nat_of_ascii a in
  if ((65 <=? n) && (n <=? 90))%nat then ascii_of_nat (n + 32) else a.

Fixpoint toLowerCase (s : string) : string :=
  match s with
  | EmptyString => EmptyString
  | String a s' => String (toLowerCase_ascii a) (toLowerCase s')
  end.

Fixpoint allChars (p : ascii → bool) (s : string) : bool :=
  match s with
  | EmptyString => true
  | String a s' => p a && allChars p s'
  end.

Definition isLegalKeyChar (a : ascii) : bool :=
  let n := nat_of_ascii a in
  (((48 <=? n) && (n <=? 57)) || ((97 <=? n) && (n <=? 122))
   || (n =? 95) || (n =? 46) || (n =? 45))%nat.

Definition isLegalKey (key : string) : bool :=
  negb (String.eqb key "") && allChars isLegalKeyChar key.

Definition endsWith (suffix s : string) : bool :=
  let n := String.length s in
  let m := String.length suffix in
  ((m <=? n)%nat && String.eqb (String.substring (n - m) m s) suffix).

Definition isBinaryKey (key : string) : bool := endsWith "-bin" key.

Definition isLegalNonBinaryValue (value : string) : bool :=
  allChars (λ a, let n := nat_of_ascii a in ((32 <=? n) && (n <=? 126))%nat) value.

Definition channel_normalizeKey (key : string) : string := toLowerCase key.

Definition channel_validate (key value : string) : bool :=
  isLegalKey key && negb (isBinaryKey key) && isLegalNonBinaryValue value.


(** ** A platform to try the theorems on

    A channel library whose [toHttp2Headers] leaves out the names that
    begin with a colon, builds its object by assignments to [{}], and
    holds a single value as the string itself and several values as their
    array; a second one that holds an array under every name.  The
    numbers of the sample are the integers from zero below [2 ^ 53],
    which [toString] prints in decimal digits.  Its functions are a
    [hasOwnProperty] that answers [true] to every name and a
    [toHttp2Headers] that returns [{}]. *)

Definition isPseudoHeader (key : string) : bool :=
  match key with
  | String ":"%char _ => true
  | _ => false
  end.

Definition compact {number : Type} (k : string) (l : list string) : HeaderValue number :=
  match l with
  | [s] => HString s
  | _ => HArray l
  end.

Definition arrays {number : Type} (k : string) (l : list string) : HeaderValue number :=
  HArray l.

Definition channel_toHttp2Headers {number : Type}
    (render : string → list string → HeaderValue number) (m : Metadata)
  : gmap string (HeaderValue number) :=
  delete "__proto__"
    (map_imap (λ k l, if isPseudoHeader k then None else Some (render k l))
              (internalRepr m)).

Definition safeInteger : Type := { n : N | (n <? 2 ^ 53)%N = true }.

#[export] Instance samplePlatform : Platform := {|
  number := safeInteger;
  Number_toString := λ n, pretty (`n);
  toHttp2Headers := channel_toHttp2Headers compact;
  foreign_hasOwnProperty := λ _ _, Returned true;
  foreign_toHttp2Headers := λ _, Returned ∅
|}.

(** The same platform over the library that returns arrays only. *)
Definition arraysPlatform : Platform := {|
  number := safeInteger;
  Number_toString := λ n, pretty (`n);
  toHttp2Headers := channel_toHttp2Headers arrays;
  foreign_hasOwnProperty := λ _ _, Returned true;
  foreign_toHttp2Headers := λ _, Returned ∅
|}.

(** ** Sample inputs *)

Definition sampleMethod : MethodInfo.t string string :=
  MethodInfo.mk "spec.Greeter" "Hello" (Some "IDEMPOTENT"%string) (λ _, true).

Definition sampleOptions (signal : option AbortSignal) : GrpcOptions.t :=
  GrpcOptions.mk "localhost:50051" (Some {[ "x-trace" := Single "t1" ]}) signal.

Definition sampleHeaders : Metadata :=
  {| internalRepr := {[ "server" := ["s1"] ]}; idempotentRequest := None |}.

Definition sampleServiceError : ServiceError.t :=
  ServiceError.mk 5 "no such greeting" (new_Metadata None) "Error" "5 NOT_FOUND: no such greeting".

Definition sampleStatusNotFound : StatusObject.t :=
  StatusObject.mk 5 "no such greeting" (new_Metadata None).

Definition sampleStatusOK : StatusObject.t :=
  StatusObject.mk GrpcStatus.OK "" (new_Metadata None).

(** [Error.prototype]. *)
Definition Error_prototype : JsValue :=
  JsObject {[ "name" := JsString "Error"; "message" := JsString "" ]} Object_prototype.

(** The own properties of a service error of the channel. *)
Definition sampleServiceErrorProperties : gmap string JsValue :=
  {[ "code" := JsNumber (Number_of 14);
     "details" := JsString "unavailable";
     "metadata" := JsMetadata sampleHeaders;
     "name" := JsString "Error";
     "message" := JsString "14 UNAVAILABLE: unavailable" ]}.

(** A service error with all five properties its own: an ordinary
    object. *)
Definition sampleJsServiceError : JsValue :=
  JsObject sampleServiceErrorProperties Object_prototype.


(** A plain [Error]: [message] is its own property, [name] comes from the
    prototype. *)
Definition samplePlainError : JsValue :=
  JsObject {[ "message" := JsString "connection reset" ]} Error_prototype.

Definition sampleUnaryFresh : UnaryCall.t string :=
  UnaryCall.mk Pending Pending Pending Pending true 0.

Definition sampleClientStreamingFresh : ClientStreamingCall.t string :=
  ClientStreamingCall.mk Pending Pending Pending Pending true 0.

Definition sampleServerStreamingFresh : ServerStreamingCall.t string :=
  ServerStreamingCall.mk Pending new_RpcOutputStreamController Pending Pending true 0.

(** * Further definitions: the rest of the codec, histories of a call, and
      the input stream *)

(** ** The domains of the codec *)

Section CodecDomains.
Variable normalizeKey : string → string.
Variable validate : string → string → bool.

(** Every string of the mapping passes the validation of [Metadata.add],
    under the key as [add] normalises it. *)
Definition passes (from : RpcMetadata) : Prop :=
  map_Forall (λ k v, Forall (λ s, validate (normalizeKey k) s = true) (valuesOf v)) from.

(** Every key of the mapping is in normal form already. *)
Definition keysNormal (from : RpcMetadata) : Prop :=
  map_Forall (λ k (_ : RpcMetadataValue), normalizeKey k = k) from.

(** A [Metadata] as calls of [add] with string values leave it: names in
    normal form, and under each name at least one value, all of them
    valid. *)
Definition wellFormed (m : Metadata) : Prop :=
  map_Forall (λ k l, normalizeKey k = k ∧ l ≠ []
                     ∧ Forall (λ s, validate k s = true) l) (internalRepr m).

End CodecDomains.

#[export] Instance passes_dec normalizeKey validate from :
  Decision (passes normalizeKey validate from).
Proof. unfold passes. apply _. Defined.

#[export] Instance keysNormal_dec normalizeKey from :
  Decision (keysNormal normalizeKey from).
Proof. unfold keysNormal. apply _. Defined.

#[export] Instance wellFormed_dec normalizeKey validate m :
  Decision (wellFormed normalizeKey validate m).
Proof. unfold wellFormed. apply _. Defined.

(** What [rpcMetaToGrpc] leaves under a header name: the values of the
    base, then the strings of the caller's value. *)
Definition mergedValues (base : option (list string)) (v : option RpcMetadataValue)
  : option (list string) :=
  match v with
  | None => base
  | Some v =>
      match valuesOf v with
      | [] => base
      | l => Some (default [] base ++ l)
      end
  end.

(** What a round trip makes of a mapping over a library that renders the
    stored strings with [render]: a key without strings and the name
    [__proto__] are gone, every other value is what the rendering of its
    strings decodes to. *)
Definition normalForm `{Platform} (render : string → list string → HeaderValue number)
    (from : RpcMetadata) : RpcMetadata :=
  map_imap (λ k v, if String.eqb k "__proto__" then None
                   else match valuesOf v with
                        | [] => None
                        | l => grpcMetaToRpc_value (render k l)
                        end) from.

(** ** Histories of a call *)

(** Status and trailer are settled by the same step: both pending, both
    resolved from one status event, or both rejected with one error. *)
Definition together `{Platform} (s : Deferred RpcStatus.t) (t : Deferred RpcMetadata)
  : Prop :=
  (s = Pending ∧ t = Pending)
  ∨ (∃ val, s = Resolved (rpcStatusOf val)
            ∧ t = Resolved (grpcMetaToRpc (StatusObject.metadata val)))
  ∨ (∃ e, s = Rejected e ∧ t = Rejected e).

(** The messages of the data events of a history that pass the type guard
    of the method, in the order of the events. *)
Definition dataOf {I O : Type} (method : MethodInfo.t I O) (evs : list (ChannelEvent O))
  : list O :=
  flat_map (λ ev, match ev with
                  | DataEvent arg1 => if MethodInfo.O_is method arg1 then [arg1] else []
                  | _ => []
                  end) evs.

(** The events whose listeners close the output stream. *)
Definition isClosingEvent {O : Type} (ev : ChannelEvent O) : bool :=
  match ev with
  | ErrorEvent _ | EndEvent => true
  | _ => false
  end.

Definition isMetadataEvent {O : Type} (ev : ChannelEvent O) : bool :=
  match ev with
  | MetadataEvent _ => true
  | _ => false
  end.

(** The events that carry an error to the listeners: a completion callback
    with an error, and the error event. *)
Definition carriesError {O : Type} (ev : ChannelEvent O) : bool :=
  match ev with
  | Callback (Some _) _ | ErrorEvent _ => true
  | _ => false
  end.

(** A status event with the code OK. *)
Definition isOkStatus {O : Type} (ev : ChannelEvent O) : bool :=
  match ev with
  | StatusEvent val => StatusObject.code val =? GrpcStatus.OK
  | _ => false
  end.

(** What the caller of a call can await. *)
Definition unary_results {O : Type} (c : UnaryCall.t O)
  : Deferred RpcMetadata * Deferred O * Deferred RpcStatus.t * Deferred RpcMetadata :=
  (UnaryCall.defHeader c, UnaryCall.defMessage c,
   UnaryCall.defStatus c, UnaryCall.defTrailer c).

Definition serverStreaming_results {O : Type} (c : ServerStreamingCall.t O)
  : Deferred RpcMetadata * RpcOutputStreamController O
    * Deferred RpcStatus.t * Deferred RpcMetadata :=
  (ServerStreamingCall.defHeader c, ServerStreamingCall.outStream c,
   ServerStreamingCall.defStatus c, ServerStreamingCall.defTrailer c).

Definition clientStreaming_results {O : Type} (c : ClientStreamingCall.t O)
  : Deferred RpcMetadata * Deferred O * Deferred RpcStatus.t * Deferred RpcMetadata :=
  (ClientStreamingCall.defHeader c, ClientStreamingCall.defMessage c,
   ClientStreamingCall.defStatus c, ClientStreamingCall.defTrailer c).

(** A history without its abort events. *)
Definition withoutAborts {O : Type} (evs : list (ChannelEvent O)) : list (ChannelEvent O) :=
  List.filter (λ ev, negb (isAbortEvent ev)) evs.

(** ** [GrpcInputStreamWrapper] *)

(** A JavaScript promise. *)
Inductive PromiseState : Type :=
  | Unsettled
  | Fulfilled (value : JsValue)
  | RejectedWith (reason : JsValue).

(** What the wrapper calls on the writable stream [inner] of the channel:
    [inner.write(message, resolve)], where [callback] numbers the promise
    whose [resolve] is handed over, and [inner.end()]. *)
Inductive InnerCall (T : Type) : Type :=
  | InnerWrite (message : T) (callback : nat)
  | InnerEnd.
Arguments InnerWrite {T} message callback.
Arguments InnerEnd {T}.

(** The wrapper with the stream it wraps: the calls made on [inner] so
    far, and the promises handed out so far. *)
Module GrpcInputStreamWrapper.
Record t (T : Type) : Type := mk {
  inner : list (InnerCall T);
  promises : list PromiseState
}.
Arguments mk {T} _ _.
Arguments inner {T} _.
Arguments promises {T} _.
End GrpcInputStreamWrapper.

(** What happens to a wrapper: the caller sends or completes, and the
    channel calls back the function it was given with a write.  A call of
    [inner.write] returns or throws; [thrown] is what it throws. *)
Inductive StreamOp (T : Type) : Type :=
  | Send (message : T) (thrown : option JsValue)
  | Complete
  | WriteCallback (callback : nat) (arg : JsValue).
Arguments Send {T} message thrown.
Arguments Complete {T}.
Arguments WriteCallback {T} callback arg.

Section InputStream.
Context {T : Type}.

Definition new_GrpcInputStreamWrapper : GrpcInputStreamWrapper.t T :=
  GrpcInputStreamWrapper.mk [] [].

(** [resolve(arg)] of a promise: it fulfils a promise that is not settled
    and does nothing to a settled one. *)
Definition Promise_resolve (arg : JsValue) (p : PromiseState) : PromiseState :=
  match p with
  | Unsettled => Fulfilled arg
  | _ => p
  end.

(** [send(message)]: a new promise whose executor calls
    [inner.write(message, resolve)] at once; the promise is rejected only
    by what the executor throws. *)
Definition GrpcInputStreamWrapper_send (message : T) (thrown : option JsValue)
    (w : GrpcInputStreamWrapper.t T) : GrpcInputStreamWrapper.t T :=
  let id := length (GrpcInputStreamWrapper.promises w) in
  GrpcInputStreamWrapper.mk
    (GrpcInputStreamWrapper.inner w ++ [InnerWrite message id])
    (GrpcInputStreamWrapper.promises w
     ++ [match thrown with
         | Some reason => RejectedWith reason
         | None => Unsettled
         end]).

(** [complete()]: [inner.end()], and a promise that is resolved already. *)
Definition GrpcInputStreamWrapper_complete (w : GrpcInputStreamWrapper.t T)
  : GrpcInputStreamWrapper.t T :=
  GrpcInputStreamWrapper.mk
    (GrpcInputStreamWrapper.inner w ++ [InnerEnd])
    (GrpcInputStreamWrapper.promises w ++ [Fulfilled JsUndefined]).

(** The channel calls the callback of a write, with an error or without. *)
Definition writeCallback (callback : nat) (arg : JsValue)
    (w : GrpcInputStreamWrapper.t T) : GrpcInputStreamWrapper.t T :=
  GrpcInputStreamWrapper.mk
    (GrpcInputStreamWrapper.inner w)
    (alter (Promise_resolve arg) callback (GrpcInputStreamWrapper.promises w)).

Definition inStream_step (op : StreamOp T) (w : GrpcInputStreamWrapper.t T)
  : GrpcInputStreamWrapper.t T :=
  match op with
  | Send message thrown => GrpcInputStreamWrapper_send message thrown w
  | Complete => GrpcInputStreamWrapper_complete w
  | WriteCallback callback arg => writeCallback callback arg w
  end.

Definition inStream_run (ops : list (StreamOp T)) (w : GrpcInputStreamWrapper.t T)
  : GrpcInputStreamWrapper.t T :=
  foldl (λ w op, inStream_step op w) w ops.

(** The messages written to the channel, and the messages sent. *)
Definition writtenMessages (calls : list (InnerCall T)) : list T :=
  flat_map (λ c, match c with InnerWrite message _ => [message] | InnerEnd => [] end) calls.

Definition sentMessages (ops : list (StreamOp T)) : list T :=
  flat_map (λ op, match op with Send message _ => [message] | _ => [] end) ops.

(** A promise rejected in the run of [ops] comes from a [send] whose
    [inner.write] threw. *)
Definition noWriteThrows (ops : list (StreamOp T)) : bool :=
  forallb (λ op, match op with Send _ (Some _) => false | _ => true end) ops.

Definition isRejected (p : PromiseState) : bool :=
  match p with
  | RejectedWith _ => true
  | _ => false
  end.

End InputStream.

(** * Properties *)

(** ** The metadata codec *)

Section CodecFacts.
Context `{platform : Platform}.
Variable normalizeKey : string → string.
Variable validate : string → string → bool.

Local Abbreviation add := (Metadata_add normalizeKey validate).
Local Abbreviation encode := (rpcMetaToGrpc normalizeKey validate).

(** The loop of [grpcMetaToRpc], header by header: the name [__proto__]
    never becomes a property of the result. *)
Lemma grpcMetaToRpc_headers_at (h2 : gmap string (HeaderValue number)) (k : string) :
  grpcMetaToRpc_headers h2 !! k
  = if String.eqb k "__proto__" then None else h2 !! k ≫= grpcMetaToRpc_value.
Proof.
  unfold grpcMetaToRpc_headers.
  induction h2 as [|j v h Hj Hfirst IH] using map_first_key_ind.
  - rewrite map_fold_empty, !lookup_empty. by destruct (String.eqb k "__proto__").
  - rewrite map_fold_insert_first_key by done.
    destruct (String.eqb k "__proto__") eqn:Hproto.
    + apply String.eqb_eq in Hproto as ->.
      destruct (grpcMetaToRpc_value v) as [v'|]; [|done].
      unfold assign. destruct (String.eqb j "__proto__") eqn:Hjp; [done|].
      apply String.eqb_neq in Hjp. by rewrite lookup_insert_ne.
    + apply String.eqb_neq in Hproto.
      destruct (decide (k = j)) as [->|Hk].
      * rewrite lookup_insert_eq. cbn.
        destruct (grpcMetaToRpc_value v) as [v'|].
        -- unfold assign. apply String.eqb_neq in Hproto. rewrite Hproto.
           by rewrite lookup_insert_eq.
        -- by rewrite IH, Hj.
      * rewrite (lookup_insert_ne h) by done. rewrite <-IH.
        destruct (grpcMetaToRpc_value v) as [v'|]; [|done].
        unfold assign. destruct (String.eqb j "__proto__"); [done|].
        by rewrite lookup_insert_ne.
Qed.

(** A string and the one-element collection of it are encoded by the same
    calls of [add]: the loop of [rpcMetaToGrpc] alone decides this. *)
Lemma rpcMetaToGrpc_entry_collection (k : string) (v : RpcMetadataValue) (to : Metadata) :
  rpcMetaToGrpc_entry normalizeKey validate k (Many (valuesOf v)) to
  = rpcMetaToGrpc_entry normalizeKey validate k v to.
Proof. by destruct v. Qed.

Lemma rpcMetaToGrpc_single (k s : string) (base : option Metadata) :
  encode {[ k := Single s ]} base = encode {[ k := Many [s] ]} base.
Proof.
  unfold rpcMetaToGrpc. cbv zeta. by rewrite !map_fold_singleton.
Qed.

Lemma rpcMetaToGrpc_asCollections (from : RpcMetadata) (base : option Metadata) :
  encode (asCollections from) base = encode from base.
Proof.
  unfold rpcMetaToGrpc, asCollections. cbv zeta. rewrite map_fold_fmap.
  induction from as [|k v from Hk Hfirst IH] using map_first_key_ind.
  - by rewrite !map_fold_empty.
  - rewrite !map_fold_insert_first_key by done.
    cbn. rewrite IH. clear IH.
    destruct (map_fold _ _ from) as [to|t]; [|reflexivity].
    exact (rpcMetaToGrpc_entry_collection k v to).
Qed.

Lemma add_many (k : string) (l : list string) (to : Metadata) :
  normalizeKey k = k →
  (∀ s, s ∈ l → validate k s = true) →
  l ≠ [] →
  foldl (λ acc vv, to' ← acc; add k vv to') (Returned to) l
  = Returned {| internalRepr :=
                  <[k := default [] (internalRepr to !! k) ++ l]> (internalRepr to);
                idempotentRequest := idempotentRequest to |}.
Proof.
  intros Hn. revert to. induction l as [|s l IH]; intros to Hv Hne; [done|].
  cbn [foldl]. unfold mbind at 2, Completion_bind.
  unfold Metadata_add at 2. rewrite Hn, Hv by left.
  destruct l as [|s' l'].
  - done.
  - rewrite IH; [|intros; apply Hv; by right|done]. cbn.
    rewrite lookup_insert_eq. cbn. rewrite insert_insert_eq.
    by rewrite <-app_assoc.
Qed.

Lemma rpcMetaToGrpc_entry_fresh (k : string) (v : RpcMetadataValue) (to : Metadata) :
  normalizeKey k = k →
  (∀ s, s ∈ valuesOf v → validate k s = true) →
  internalRepr to !! k = None →
  ∃ to', rpcMetaToGrpc_entry normalizeKey validate k v to = Returned to'
         ∧ idempotentRequest to' = idempotentRequest to
         ∧ internalRepr to' =
             match valuesOf v with
             | [] => internalRepr to
             | l => <[k := l]> (internalRepr to)
             end.
Proof.
  intros Hn Hv Hk. destruct v as [s|l]; cbn [rpcMetaToGrpc_entry valuesOf] in *.
  - unfold Metadata_add. rewrite Hn, Hv by left. rewrite Hk.
    eexists; split; [done|]. done.
  - destruct l as [|s l]; [by eexists|].
    rewrite add_many by done. rewrite Hk.
    eexists; split; [done|]. done.
Qed.

(** Encoding an accepted mapping does not throw, and the channel then
    holds, under each key, the strings of its value. *)
Lemma rpcMetaToGrpc_accepted (from : RpcMetadata) :
  accepted normalizeKey validate from →
  ∃ to, encode from None = Returned to
        ∧ internalRepr to =
            omap (λ v, match valuesOf v with [] => None | l => Some l end) from.
Proof.
  unfold rpcMetaToGrpc. cbv zeta. cbn [default].
  induction from as [|k v from Hk Hfirst IH] using map_first_key_ind; intros Hacc.
  - rewrite map_fold_empty. eexists; split; [done|]. by rewrite omap_empty.
  - rewrite map_fold_insert_first_key by done.
    destruct IH as (to & -> & Hto).
    { by apply map_Forall_insert_1_2 in Hacc. }
    apply map_Forall_insert_1_1 in Hacc as [Hn Hv].
    destruct (rpcMetaToGrpc_entry_fresh k v to Hn) as (to' & Hto' & _ & Hrepr).
    { by apply Forall_forall. }
    { by rewrite Hto, lookup_omap, Hk. }
    cbn. rewrite Hto'. eexists; split; [done|].
    rewrite Hrepr, Hto. destruct (valuesOf v) as [|s l] eqn:Hvs.
    + rewrite omap_insert_None by (by rewrite Hvs).
      rewrite delete_id; [done|]. by rewrite lookup_omap, Hk.
    + by erewrite omap_insert_Some by (by rewrite Hvs).
Qed.

(** A rendering of stored strings decodes to a value with these strings,
    and to the collection itself when there are two or more. *)
Lemma render_decodes (render : string → list string → HeaderValue number)
    (k : string) (l : list string) :
  headerStrings (render k l) = Some l →
  ∃ v, grpcMetaToRpc_value (render k l) = Some v
       ∧ valuesOf v = l
       ∧ ((2 ≤ length l)%nat → v = Many l).
Proof.
  destruct (render k l) as [|n|s|l']; cbn; intros [= <-].
  - exists (Single s). repeat split. cbn. lia.
  - exists (Many l'). by repeat split.
Qed.

(** A round trip over a library that renders the stored strings. *)
Lemma roundTrip_accepted (render : string → list string → HeaderValue number)
    (from : RpcMetadata) :
  rendersStoredValues validate render →
  accepted normalizeKey validate from →
  roundTrip normalizeKey validate from = Returned (normalForm render from).
Proof.
  intros [_ Hlib] Hacc. unfold roundTrip.
  destruct (rpcMetaToGrpc_accepted from Hacc) as (to & -> & Hto).
  cbn. unfold mret, Completion_ret. f_equal.
  apply map_eq; intros k. unfold grpcMetaToRpc, normalForm. cbv zeta.
  rewrite grpcMetaToRpc_headers_at, map_lookup_imap.
  destruct (String.eqb k "__proto__") eqn:Hproto.
  { by destruct (from !! k). }
  apply String.eqb_neq in Hproto.
  specialize (Hlib to k Hproto). rewrite Hto, lookup_omap in Hlib.
  destruct (from !! k) as [v|] eqn:Hk; cbn in *.
  - destruct (Hacc k v Hk) as [_ Hv].
    destruct (valuesOf v) as [|s l]; cbn in *.
    + by rewrite Hlib.
    + by rewrite Hlib.
  - by rewrite Hlib.
Qed.

(** What a round trip yields under a key. *)
Lemma normalForm_lookup (render : string → list string → HeaderValue number)
    (from : RpcMetadata) (k : string) (v : RpcMetadataValue) :
  (∀ k l, l ≠ [] → headerStrings (render k l) = Some l) →
  from !! k = Some v →
  k ≠ "__proto__"%string →
  valuesOf v ≠ [] →
  ∃ v', normalForm render from !! k = Some v'
        ∧ grpcMetaToRpc_value (render k (valuesOf v)) = Some v'
        ∧ valuesOf v' = valuesOf v
        ∧ ((2 ≤ length (valuesOf v))%nat → v' = Many (valuesOf v)).
Proof.
  intros Hrender Hk Hproto Hne. unfold normalForm. rewrite map_lookup_imap, Hk. cbn.
  apply String.eqb_neq in Hproto. rewrite Hproto.
  destruct (render_decodes render k (valuesOf v) (Hrender _ _ Hne)) as (v' & Hv' & Hs & Hl).
  exists v'. destruct (valuesOf v); [done|]. done.
Qed.

(** C4, as amended.  Over a channel library that returns from
    [toHttp2Headers] the strings stored under each name, a mapping whose
    values are strings or non-empty collections of strings, whose header
    names and values the channel stores as they are, and which has no
    name [__proto__], comes back from [rpcMetaToGrpc] followed by
    [grpcMetaToRpc] with the same names and, under each name, the same
    strings in the same order; a collection of two or more strings comes
    back as it was.  Whether a single string comes back as a string or as
    a one-element collection is not up to the mapping: the mapping in
    which every value is the collection of its strings comes back as the
    same result. *)
Theorem roundTrip_strings (render : string → list string → HeaderValue number)
    (from : RpcMetadata) :
  rendersStoredValues validate render →
  accepted normalizeKey validate from →
  stringsOrNonEmpty from →
  from !! "__proto__" = None →
  ∃ m, roundTrip normalizeKey validate from = Returned m
       ∧ (∀ k, valuesOf <$> m !! k = valuesOf <$> from !! k)
       ∧ (∀ k l, from !! k = Some (Many l) → (2 ≤ length l)%nat → m !! k = Some (Many l))
       ∧ roundTrip normalizeKey validate (asCollections from) = Returned m.
Proof.
  intros Hlib Hacc Hne Hproto. exists (normalForm render from).
  pose proof (roundTrip_accepted render from Hlib Hacc) as Hrt.
  destruct Hlib as [Hrender Hlib].
  assert (Hnp : ∀ k v, from !! k = Some v → k ≠ "__proto__"%string).
  { intros k v Hk ->. by rewrite Hproto in Hk. }
  repeat split.
  - exact Hrt.
  - intros k. destruct (from !! k) as [v|] eqn:Hk.
    + destruct (normalForm_lookup render from k v Hrender Hk (Hnp _ _ Hk) (Hne _ _ Hk))
        as (v' & -> & _ & Hs & _).
      cbn. by rewrite Hs.
    + unfold normalForm. by rewrite map_lookup_imap, Hk.
  - intros k l Hk Hl.
    destruct (normalForm_lookup render from k _ Hrender Hk (Hnp _ _ Hk) (Hne _ _ Hk))
      as (v' & -> & _ & _ & Hmany).
    f_equal. by apply Hmany.
  - unfold roundTrip in *. by rewrite rpcMetaToGrpc_asCollections.
Qed.

End CodecFacts.

(** The two libraries of the samples render the stored strings. *)
Lemma isLegalKey_not_pseudo (key : string) :
  isLegalKey key = true → isPseudoHeader key = false.
Proof.
  destruct key as [|a key]; [done|].
  unfold isLegalKey. intros Hk. apply andb_true_iff in Hk as [_ Hk].
  cbn [allChars] in Hk. apply andb_true_iff in Hk as [Ha _].
  unfold isPseudoHeader.
  destruct a as [[] [] [] [] [] [] [] []]; try reflexivity.
  vm_compute in Ha. discriminate.
Qed.

Lemma channel_toHttp2Headers_renders {number : Type}
    (render : string → list string → HeaderValue number)
    (m : Metadata) (k : string) :
  k ≠ "__proto__"%string →
  match internalRepr m !! k with
  | None => channel_toHttp2Headers render m !! k = None
  | Some l => l ≠ [] → Forall (λ s, channel_validate k s = true) l →
              channel_toHttp2Headers render m !! k = Some (render k l)
  end.
Proof.
  intros Hk. unfold channel_toHttp2Headers.
  rewrite lookup_delete_ne by done. rewrite map_lookup_imap.
  destruct (internalRepr m !! k) as [l|]; [|done]. cbn.
  intros Hne Hv. destruct l as [|s l]; [done|].
  apply Forall_cons in Hv as [Hs _]. unfold channel_validate in Hs.
  apply andb_true_iff in Hs as [Hs _]. apply andb_true_iff in Hs as [Hs _].
  by rewrite (isLegalKey_not_pseudo k Hs).
Qed.

Lemma samplePlatform_renders : rendersStoredValues channel_validate compact.
Proof.
  split.
  - intros k [|s [|s' l]] Hl; done.
  - intros m k Hk. by apply (channel_toHttp2Headers_renders compact).
Qed.

Lemma arraysPlatform_renders :
  @rendersStoredValues arraysPlatform channel_validate arrays.
Proof.
  split.
  - by intros k l Hl.
  - intros m k Hk. by apply (channel_toHttp2Headers_renders arrays).
Qed.

Lemma roundTrip_strings_witness :
  ∃ m, roundTrip channel_normalizeKey channel_validate
         {[ "x-trace" := Many ["t1"; "t2"]; "accept" := Single "text" ]}
       = Returned m
       ∧ m !! "x-trace" = Some (Many ["t1"; "t2"])
       ∧ valuesOf <$> m !! "accept" = Some ["text"].
Proof.
  destruct (roundTrip_strings channel_normalizeKey channel_validate compact
              {[ "x-trace" := Many ["t1"; "t2"]; "accept" := Single "text" ]})
    as (m & Hm & Hstrings & Hmany & _).
  - exact samplePlatform_renders.
  - apply (bool_decide_unpack _). vm_compute. exact I.
  - apply (bool_decide_unpack _). vm_compute. exact I.
  - reflexivity.
  - exists m. split; [exact Hm|]. split.
    + apply Hmany; [reflexivity | cbn; lia].
    + apply Hstrings.
Defined.

(** C4 as it is stated fails.  [rpcMetaToGrpc] makes the same calls of
    [add] for [{k: "v"}] and for [{k: ["v"]}], both of which the claim
    covers.  So whatever the channel does with what it was given, its key
    rules and its [toHttp2Headers], there is no platform on which both
    mappings come back as they were. *)
Lemma roundTrip_forgets_shape :
  stringsOrNonEmpty ({[ "k" := Single "v" ]} : RpcMetadata)
  ∧ stringsOrNonEmpty ({[ "k" := Many ["v"] ]} : RpcMetadata)
  ∧ ¬ ∃ (platform : Platform) (normalizeKey : string → string)
        (validate : string → string → bool),
        roundTrip normalizeKey validate {[ "k" := Single "v" ]}
        = Returned {[ "k" := Single "v" ]}
        ∧ roundTrip normalizeKey validate {[ "k" := Many ["v"] ]}
          = Returned {[ "k" := Many ["v"] ]}.
Proof.
  split; [|split].
  - apply (bool_decide_unpack _). vm_compute. exact I.
  - apply (bool_decide_unpack _). vm_compute. exact I.
  - intros (platform & normalizeKey & validate & H1 & H2).
    unfold roundTrip in H1, H2. rewrite rpcMetaToGrpc_single, H2 in H1.
    apply (f_equal (λ r, match r with Returned m => m !! "k" | Threw _ => None end)) in H1.
    rewrite !lookup_singleton_eq in H1. discriminate.
Qed.

(** Whatever the channel does with a header, no decoder can tell the two
    mappings apart after [rpcMetaToGrpc]. *)
Lemma rpcMetaToGrpc_not_injective (normalizeKey : string → string)
    (validate : string → string → bool) (decode : Metadata → RpcMetadata) :
  ¬ (∀ from : RpcMetadata, stringsOrNonEmpty from →
       (to ← rpcMetaToGrpc normalizeKey validate from None; mret (decode to))
       = Returned from).
Proof.
  intros H.
  assert (Hs : ∀ v : RpcMetadataValue, valuesOf v ≠ [] →
            stringsOrNonEmpty ({[ "k" := v ]} : RpcMetadata)).
  { intros v Hv. by apply map_Forall_singleton. }
  pose proof (H {[ "k" := Single "v" ]} (Hs (Single "v") ltac:(by cbn))) as H1.
  pose proof (H {[ "k" := Many ["v"] ]} (Hs (Many ["v"]) ltac:(by cbn))) as H2.
  rewrite rpcMetaToGrpc_single, H2 in H1.
  apply (f_equal (λ r, match r with Returned m => m !! "k" | Threw _ => None end)) in H1.
  rewrite !lookup_singleton_eq in H1. discriminate.
Qed.

(** Over the library that holds a single value as the string itself, a
    one-element collection comes back as a string, and a string as it
    was. *)
Example roundTrip_compact :
  roundTrip channel_normalizeKey channel_validate {[ "k" := Many ["v"] ]}
  = Returned {[ "k" := Single "v" ]}
  ∧ roundTrip channel_normalizeKey channel_validate {[ "k" := Single "v" ]}
    = Returned {[ "k" := Single "v" ]}.
Proof. split; by vm_compute. Qed.

(** Over the library that holds arrays only it is the string that does
    not come back. *)
Example roundTrip_arrays :
  @roundTrip arraysPlatform channel_normalizeKey channel_validate {[ "k" := Single "v" ]}
  = Returned {[ "k" := Many ["v"] ]}
  ∧ @roundTrip arraysPlatform channel_normalizeKey channel_validate {[ "k" := Many ["v"] ]}
    = Returned {[ "k" := Many ["v"] ]}.
Proof. split; by vm_compute. Qed.

(** The name [__proto__] passes the rules of the channel and is lost on
    the way back. *)
Example roundTrip_proto :
  roundTrip channel_normalizeKey channel_validate
    {[ "__proto__" := Many ["a"; "b"]; "k" := Many ["v"; "w"] ]}
  = Returned {[ "k" := Many ["v"; "w"] ]}.
Proof. by vm_compute. Qed.

(** A header name that is not in normal form comes back normalised. *)
Example roundTrip_upper_case_key :
  roundTrip channel_normalizeKey channel_validate {[ "X-Trace" := Many ["t1"; "t2"] ]}
  = Returned {[ "x-trace" := Many ["t1"; "t2"] ]}.
Proof. by vm_compute. Qed.

(** A name the channel refuses makes [rpcMetaToGrpc] throw. *)
Example roundTrip_refused_key :
  roundTrip channel_normalizeKey channel_validate {[ "x trace" := Single "t1" ]}
  = Threw MetadataRefused.
Proof. by vm_compute. Qed.

(** ** The error classifier *)

Lemma String_eqb_true (s1 s2 : string) : String.eqb s1 s2 = true ↔ s1 = s2.
Proof. apply String.eqb_eq. Qed.

Section ClassifierFacts.
Context `{platform : Platform}.

(** With the method of [Object.prototype], the loop over the five names
    asks for own properties, and nothing throws. *)
Lemma every_hasOwnProperty (arg : JsValue) (rp : list string) :
  inheritsHasOwnProperty arg →
  every (λ p, hasOwnProperty arg p) rp
  = Returned (forallb (λ p, bool_decide (is_Some (ownProperty arg p))) rp).
Proof.
  intros Hinh. induction rp as [|p rp IH]; [done|].
  cbn [every forallb]. rewrite IH.
  assert (hasOwnProperty arg p = Returned (bool_decide (is_Some (ownProperty arg p))))
    as -> by (unfold hasOwnProperty; by rewrite Hinh).
  by destruct (bool_decide (is_Some (ownProperty arg p))).
Qed.


Lemma isServiceError_object (own : gmap string JsValue) (proto : JsValue) :
  inheritsHasOwnProperty (JsObject own proto) →
  ∃ b, isServiceError (JsObject own proto) = Returned b
       ∧ (b = true ↔
          ∃ code details metadata name message,
            own !! "code" = Some code ∧ typeof code = "number"
            ∧ own !! "details" = Some details ∧ typeof details = "string"
            ∧ own !! "metadata" = Some metadata ∧ typeof metadata = "object"
            ∧ own !! "name" = Some name ∧ typeof name = "string"
            ∧ own !! "message" = Some message ∧ typeof message = "string").
Proof.
  intros Hinh. unfold isServiceError. cbn [typeof truthy String.eqb negb orb].
  change (String.eqb "object" "object") with true. cbn [negb orb].
  cbv zeta. rewrite every_hasOwnProperty by done. cbn.
  destruct (own !! "code") as [code|];
    [|eexists; split; [done|]; split; [done|]; by intros (? & ? & ? & ? & ? & ? & _)].
  destruct (own !! "details") as [details|];
    [|eexists; split; [done|]; split; [done|];
      by intros (? & ? & ? & ? & ? & _ & _ & ? & _)].
  destruct (own !! "metadata") as [metadata|];
    [|eexists; split; [done|]; split; [done|];
      by intros (? & ? & ? & ? & ? & _ & _ & _ & _ & ? & _)].
  destruct (own !! "name") as [name|];
    [|eexists; split; [done|]; split; [done|];
      by intros (? & ? & ? & ? & ? & _ & _ & _ & _ & _ & _ & ? & _)].
  destruct (own !! "message") as [message|];
    [|eexists; split; [done|]; split; [done|];
      by intros (? & ? & ? & ? & ? & _ & _ & _ & _ & _ & _ & _ & _ & ? & _)].
  cbn. eexists; split; [done|].
  rewrite !andb_true_iff, !String_eqb_true. split.
  - intros ((((Hc & Hd) & Hm) & Hn) & Hmsg).
    exists code, details, metadata, name, message. by repeat split.
  - intros (code' & details' & metadata' & name' & message'
            & [= <-] & Hc & [= <-] & Hd & [= <-] & Hm & [= <-] & Hn & [= <-] & Hmsg).
    done.
Qed.

(** On a value that is an ordinary object or no object at all,
    [isServiceError] returns, and returns [true] on the shape of a service
    error only. *)
Lemma isServiceError_decides (arg : JsValue) :
  (typeof arg = "object" → arg ≠ JsNull → inheritsHasOwnProperty arg) →
  ∃ b, isServiceError arg = Returned b ∧ (b = true ↔ serviceErrorShape arg).
Proof.
  intros Hinh. unfold serviceErrorShape.
  destruct arg as [| | | | | | |m|own proto];
    try (exists false; split; [reflexivity|]; split; [done|];
         cbn; by intros (? & ? & ? & ? & ? & ? & ? & ? & _)).
  destruct (isServiceError_object own proto) as (b & Hb & Hshape).
  { by apply Hinh. }
  exists b. split; [done|]. rewrite Hshape. cbn. split.
  - intros Hs. by repeat split.
  - by intros (_ & _ & Hs).
Qed.

(** What the listener makes of the value, by the answer of
    [isServiceError]. *)
Lemma classifyError_recognised (err : JsValue) :
  isServiceError err = Returned true →
  classifyError err
  = (meta ← grpcMetaToRpc_at (get err "metadata");
     mret (RpcError.mk (get err "message") (GrpcStatus_at (get err "code")) (Some meta))).
Proof.
  intros Hs. unfold classifyError. rewrite Hs. cbn.
  destruct err; try done; discriminate Hs.
Qed.



End ClassifierFacts.



(** An [Error] whose [name] is inherited is not a service error, even with
    the other four properties its own. *)
Example isServiceError_inherited_name :
  isServiceError
    (JsObject {[ "code" := JsNumber (Number_of 14); "details" := JsString "unavailable";
                 "metadata" := JsMetadata sampleHeaders;
                 "message" := JsString "14 UNAVAILABLE: unavailable" ]}
              Error_prototype)
  = Returned false.
Proof. reflexivity. Qed.

(** A method [hasOwnProperty] of the value's own making decides in place
    of the built-in one: on the platform of the samples, whose functions
    answer [true], a value that inherits all five properties is taken for
    a service error. *)
Example isServiceError_overridden :
  isServiceError
    (JsObject {[ "hasOwnProperty" := JsFunction ]}
              (JsObject sampleServiceErrorProperties Object_prototype))
  = Returned true
  ∧ ¬ serviceErrorShape
        (JsObject {[ "hasOwnProperty" := JsFunction ]}
                  (JsObject sampleServiceErrorProperties Object_prototype)).
Proof.
  split; [reflexivity|].
  intros (_ & _ & code & ? & ? & ? & ? & Hcode & _). cbn in Hcode.
  by rewrite lookup_singleton_ne in Hcode.
Qed.

(** A value that passes [isServiceError] with [null] for its metadata makes
    the listener throw: [grpcMetaToRpc] calls a method of it. *)
Example classifyError_null_metadata :
  isServiceError
    (JsObject {[ "code" := JsNumber (Number_of 14); "details" := JsString "unavailable";
                 "metadata" := JsNull; "name" := JsString "Error";
                 "message" := JsString "unavailable" ]} Object_prototype)
  = Returned true
  ∧ classifyError
      (JsObject {[ "code" := JsNumber (Number_of 14); "details" := JsString "unavailable";
                   "metadata" := JsNull; "name" := JsString "Error";
                   "message" := JsString "unavailable" ]} Object_prototype)
    = Threw TypeError.
Proof. split; by vm_compute. Qed.

(** ** Deferred results and the output stream *)

Section DeferredFacts.
Context {T : Type}.
Implicit Types (d : Deferred T) (e : RpcError.t) (v : T).

Lemma state_pending d : state d = PENDING ↔ d = Pending.
Proof. by destruct d. Qed.

Lemma settled_not_pending d : settled d ↔ isPending d = false.
Proof. unfold settled. by destruct d. Qed.

Lemma rejectPending_pending e d : state d = PENDING → rejectPending e d = Rejected e.
Proof. by intros ->%state_pending. Qed.

Lemma resolvePending_pending v d : state d = PENDING → resolvePending v d = Resolved v.
Proof. by intros ->%state_pending. Qed.

Lemma rejectPending_settled e d : settled d → rejectPending e d = d.
Proof. unfold settled. by destruct d. Qed.

Lemma resolvePending_settled v d : settled d → resolvePending v d = d.
Proof. unfold settled. by destruct d. Qed.

Lemma resolve_settled v d : settled d → resolve v d = d.
Proof. apply resolvePending_settled. Qed.

Lemma rejectPending_is_settled e d : settled (rejectPending e d).
Proof. unfold settled. by destruct d. Qed.

Lemma resolvePending_is_settled v d : settled (resolvePending v d).
Proof. unfold settled. by destruct d. Qed.

Lemma rejectPending_settlesWith e d : settlesWith (Rejected e) d (rejectPending e d).
Proof. split; [apply rejectPending_pending | apply rejectPending_settled]. Qed.

Lemma resolvePending_settlesWith v d : settlesWith (Resolved v) d (resolvePending v d).
Proof. split; [apply resolvePending_pending | apply resolvePending_settled]. Qed.

Lemma settlesWith_refl_settled (outcome d : Deferred T) :
  settled d → settlesWith outcome d d.
Proof. intros Hd. split; [intros Hp; by destruct Hd | done]. Qed.

End DeferredFacts.

Section StreamFacts.
Context {T : Type}.
Implicit Types (s : RpcOutputStreamController T) (e : RpcError.t) (m : T).

Lemma notifyMessage_closed m s : closed s = true → notifyMessage m s = s.
Proof. unfold notifyMessage. by intros ->. Qed.

Lemma notifyError_closed e s : closed s = true → notifyError e s = s.
Proof. unfold notifyError. by intros ->. Qed.

Lemma notifyComplete_closed s : closed s = true → notifyComplete s = s.
Proof. unfold notifyComplete. by intros ->. Qed.

Lemma notifyError_closes e s : closed (notifyError e s) = true.
Proof. unfold notifyError. by destruct (closed s) eqn:E. Qed.

Lemma notifyComplete_closes s : closed (notifyComplete s) = true.
Proof. unfold notifyComplete. by destruct (closed s) eqn:E. Qed.

End StreamFacts.

(** ** The unary call *)

Section UnaryFacts.
Context `{platform : Platform}.
Context {O : Type}.
Implicit Types (c : UnaryCall.t O) (val : StatusObject.t) (err : ServiceError.t).

(** The error of the protocol violation is of the class [DATA_LOSS]. *)
Lemma expectedErrorStatus_code : RpcError.code expectedErrorStatus = Some "DATA_LOSS"%string.
Proof. reflexivity. Qed.

(** The two branches of the status listener. *)
Lemma unary_onStatus_violation val c :
  state (UnaryCall.defMessage c) = PENDING →
  StatusObject.code val = GrpcStatus.OK →
  unary_onStatus val c
  = UnaryCall.mk (UnaryCall.defHeader c)
                 (Rejected expectedErrorStatus)
                 (rejectPending expectedErrorStatus (UnaryCall.defStatus c))
                 (rejectPending expectedErrorStatus (UnaryCall.defTrailer c))
                 (UnaryCall.abortListener c) (UnaryCall.cancelled c).
Proof.
  intros Hp Hok. unfold unary_onStatus.
  rewrite bool_decide_true by done. rewrite Hok, Z.eqb_refl. cbn.
  by rewrite (rejectPending_pending _ _ Hp).
Qed.

Lemma unary_onStatus_regular val c :
  ¬ (state (UnaryCall.defMessage c) = PENDING ∧ StatusObject.code val = GrpcStatus.OK) →
  unary_onStatus val c
  = UnaryCall.mk (UnaryCall.defHeader c)
                 (UnaryCall.defMessage c)
                 (resolvePending (rpcStatusOf val) (UnaryCall.defStatus c))
                 (resolvePending (grpcMetaToRpc (StatusObject.metadata val))
                                 (UnaryCall.defTrailer c))
                 (UnaryCall.abortListener c) (UnaryCall.cancelled c).
Proof.
  intros Hno. unfold unary_onStatus.
  destruct (bool_decide _ && _) eqn:E; [|done].
  apply andb_true_iff in E as [Hp%bool_decide_eq_true Hok%Z.eqb_eq]. tauto.
Qed.

(** C1, as amended.  For a unary call, when the status event arrives
    while the message is still pending and the code is OK, the message is
    rejected with the [DATA_LOSS] error, and so are the status and the
    trailer if they are still pending; otherwise the status, if it is still
    pending, is resolved with the code name and the detail string, and the
    trailer, if it is still pending, with the translated metadata.  A
    deferred result that was settled before keeps its outcome, and the
    header is not touched. *)
Theorem unary_status_event val c :
  RpcError.code expectedErrorStatus = Some "DATA_LOSS"%string
  ∧ (state (UnaryCall.defMessage c) = PENDING → StatusObject.code val = GrpcStatus.OK →
       UnaryCall.defMessage (unary_onStatus val c) = Rejected expectedErrorStatus
     ∧ settlesWith (Rejected expectedErrorStatus)
         (UnaryCall.defStatus c) (UnaryCall.defStatus (unary_onStatus val c))
     ∧ settlesWith (Rejected expectedErrorStatus)
         (UnaryCall.defTrailer c) (UnaryCall.defTrailer (unary_onStatus val c))
     ∧ UnaryCall.defHeader (unary_onStatus val c) = UnaryCall.defHeader c)
  ∧ (¬ (state (UnaryCall.defMessage c) = PENDING
        ∧ StatusObject.code val = GrpcStatus.OK) →
       settlesWith (Resolved (rpcStatusOf val))
         (UnaryCall.defStatus c) (UnaryCall.defStatus (unary_onStatus val c))
     ∧ settlesWith (Resolved (grpcMetaToRpc (StatusObject.metadata val)))
         (UnaryCall.defTrailer c) (UnaryCall.defTrailer (unary_onStatus val c))
     ∧ UnaryCall.defMessage (unary_onStatus val c) = UnaryCall.defMessage c
     ∧ UnaryCall.defHeader (unary_onStatus val c) = UnaryCall.defHeader c).
Proof.
  split; [reflexivity|]. split.
  - intros Hp Hok. rewrite unary_onStatus_violation by done. cbn.
    repeat split; try done; apply rejectPending_settlesWith.
  - intros Hno. rewrite unary_onStatus_regular by done. cbn.
    repeat split; try done; apply resolvePending_settlesWith.
Qed.

End UnaryFacts.

Lemma unary_status_event_witness :
  UnaryCall.defMessage (unary_onStatus sampleStatusOK sampleUnaryFresh)
    = Rejected expectedErrorStatus
  ∧ UnaryCall.defStatus (unary_onStatus sampleStatusOK sampleUnaryFresh)
    = Rejected expectedErrorStatus
  ∧ UnaryCall.defTrailer (unary_onStatus sampleStatusOK sampleUnaryFresh)
    = Rejected expectedErrorStatus.
Proof.
  destruct (unary_status_event sampleStatusOK sampleUnaryFresh) as (_ & H & _).
  destruct H as (Hm & [Hs _] & [Ht _] & _); [reflexivity | reflexivity |].
  split; [exact Hm|]. split; [apply Hs | apply Ht]; reflexivity.
Defined.

(** C1 as it is stated fails in the ordinary course of a failed call: the
    completion callback reports the error first and rejects all four
    deferred results, and the status event that follows (code 5,
    NOT_FOUND) finds the status and the trailer settled.  They stay
    rejected with the error of the callback; they are not resolved with
    the code name and the translated metadata. *)
Lemma unary_status_after_error :
  state (UnaryCall.defMessage
           (unary_callback (Some sampleServiceError) None sampleUnaryFresh)) ≠ PENDING
  ∧ UnaryCall.defStatus
      (unary_onStatus sampleStatusNotFound
         (unary_callback (Some sampleServiceError) None sampleUnaryFresh))
    = Rejected (rpcErrorOf sampleServiceError)
  ∧ UnaryCall.defStatus
      (unary_onStatus sampleStatusNotFound
         (unary_callback (Some sampleServiceError) None sampleUnaryFresh))
    ≠ Resolved (rpcStatusOf sampleStatusNotFound)
  ∧ UnaryCall.defTrailer
      (unary_onStatus sampleStatusNotFound
         (unary_callback (Some sampleServiceError) None sampleUnaryFresh))
    ≠ Resolved (grpcMetaToRpc (StatusObject.metadata sampleStatusNotFound)).
Proof. repeat split; discriminate. Qed.

(** The same for the first half of C1: after a status event with an error
    code and no message, a status event with OK finds the status settled;
    only the message is rejected with the [DATA_LOSS] error. *)
Example unary_status_twice :
  UnaryCall.defMessage
    (unary_onStatus sampleStatusOK (unary_onStatus sampleStatusNotFound sampleUnaryFresh))
  = Rejected expectedErrorStatus
  ∧ UnaryCall.defStatus
      (unary_onStatus sampleStatusOK (unary_onStatus sampleStatusNotFound sampleUnaryFresh))
    = Resolved (RpcStatus.mk (Some "NOT_FOUND") "no such greeting").
Proof. split; reflexivity. Qed.

Section UnaryHistory.
Context `{platform : Platform}.
Context {O : Type}.
Implicit Types (c : UnaryCall.t O) (evs : list (ChannelEvent O)).

(** Before the first status event, the status and the trailer are settled
    only together with the message: by an error of the callback. *)
Lemma unary_message_pending_before_status evs c :
  forallb (λ ev, negb (isStatusEvent ev)) evs = true →
  (state (UnaryCall.defMessage c) = PENDING →
     state (UnaryCall.defStatus c) = PENDING ∧ state (UnaryCall.defTrailer c) = PENDING) →
  state (UnaryCall.defMessage (unary_run evs c)) = PENDING →
  state (UnaryCall.defStatus (unary_run evs c)) = PENDING
  ∧ state (UnaryCall.defTrailer (unary_run evs c)) = PENDING.
Proof.
  unfold unary_run. revert c. induction evs as [|ev evs IH]; intros c Hev Hc; [done|].
  cbn in Hev. apply andb_true_iff in Hev as [Hev1 Hev2].
  cbn [foldl]. apply IH; [done|].
  destruct ev as [err value| | | | | |]; cbn in *; try done.
  - destruct c as [h m s t a n]; cbn in *.
    destruct err, value, m; cbn; try done; intros _; by apply Hc.
  - by destruct (UnaryCall.abortListener c).
Qed.

(** When the first status event of a unary call arrives with OK while the
    message is pending, all three are rejected with the [DATA_LOSS]
    error. *)
Lemma unary_first_status_ok evs val :
  forallb (λ ev, negb (isStatusEvent ev)) evs = true →
  StatusObject.code val = GrpcStatus.OK →
  ∀ a, state (UnaryCall.defMessage
                (unary_run evs (UnaryCall.mk Pending Pending Pending Pending a 0%nat)))
       = PENDING →
  UnaryCall.defMessage
    (unary_onStatus val (unary_run evs (UnaryCall.mk Pending Pending Pending Pending a 0%nat)))
  = Rejected expectedErrorStatus
  ∧ UnaryCall.defStatus
      (unary_onStatus val (unary_run evs (UnaryCall.mk Pending Pending Pending Pending a 0%nat)))
    = Rejected expectedErrorStatus
  ∧ UnaryCall.defTrailer
      (unary_onStatus val (unary_run evs (UnaryCall.mk Pending Pending Pending Pending a 0%nat)))
    = Rejected expectedErrorStatus.
Proof.
  intros Hev Hok a Hp.
  destruct (unary_message_pending_before_status evs
              (UnaryCall.mk Pending Pending Pending Pending a 0%nat) Hev) as [Hs Ht];
    [done|done|].
  rewrite unary_onStatus_violation by done. cbn.
  by rewrite !rejectPending_pending.
Qed.

(** C5.  When the completion callback of a unary call supplies an error,
    the error is translated once, with its message, the name of its code
    and its translated metadata, and every one of header, message, status
    and trailer that is still pending when the error is handled is
    rejected with that one error; what was settled before stays as it was.
    The error is handled after the value: without a value the callback has
    changed nothing by then, and a value has resolved a pending message. *)
Theorem unary_callback_error (err : ServiceError.t) (value : option O) c :
  (RpcError.message (rpcErrorOf err) = JsString (ServiceError.message err)
   ∧ RpcError.code (rpcErrorOf err) = GrpcStatus.name (ServiceError.code err)
   ∧ RpcError.meta (rpcErrorOf err) = Some (grpcMetaToRpc (ServiceError.metadata err)))
  ∧ (settlesWith (Rejected (rpcErrorOf err))
       (UnaryCall.defHeader (unary_callback None value c))
       (UnaryCall.defHeader (unary_callback (Some err) value c))
     ∧ settlesWith (Rejected (rpcErrorOf err))
         (UnaryCall.defMessage (unary_callback None value c))
         (UnaryCall.defMessage (unary_callback (Some err) value c))
     ∧ settlesWith (Rejected (rpcErrorOf err))
         (UnaryCall.defStatus (unary_callback None value c))
         (UnaryCall.defStatus (unary_callback (Some err) value c))
     ∧ settlesWith (Rejected (rpcErrorOf err))
         (UnaryCall.defTrailer (unary_callback None value c))
         (UnaryCall.defTrailer (unary_callback (Some err) value c)))
  ∧ (value = None → unary_callback None value c = c)
  ∧ (UnaryCall.defHeader (unary_callback None value c) = UnaryCall.defHeader c
     ∧ UnaryCall.defStatus (unary_callback None value c) = UnaryCall.defStatus c
     ∧ UnaryCall.defTrailer (unary_callback None value c) = UnaryCall.defTrailer c).
Proof.
  split; [done|]. unfold unary_callback. cbn.
  split; [repeat split; apply rejectPending_settlesWith|].
  split; [|done]. intros ->. by destruct c.
Qed.

End UnaryHistory.

Lemma unary_callback_error_witness :
  unary_callback (Some sampleServiceError) None sampleUnaryFresh
  = UnaryCall.mk (Rejected (rpcErrorOf sampleServiceError))
                 (Rejected (rpcErrorOf sampleServiceError))
                 (Rejected (rpcErrorOf sampleServiceError))
                 (Rejected (rpcErrorOf sampleServiceError)) true 0.
Proof.
  destruct (unary_callback_error sampleServiceError None sampleUnaryFresh)
    as (_ & ([Hh _] & [Hm _] & [Hs _] & [Ht _]) & Hc & _).
  rewrite (Hc eq_refl) in Hh, Hm, Hs, Ht.
  destruct (unary_callback (Some sampleServiceError) None sampleUnaryFresh)
    as [h m s t a n] eqn:E.
  cbn in Hh, Hm, Hs, Ht.
  rewrite (Hh eq_refl), (Hm eq_refl), (Hs eq_refl), (Ht eq_refl).
  injection E as _ _ _ _ <- <-. reflexivity.
Defined.

(** ** The completion callback with a value and an error, and the client-streaming call *)

Section CallbackFacts.
Context `{platform : Platform}.
Context {O : Type}.

(** C9, as amended.  When the completion callback of a unary or of a
    client-streaming call is invoked with both a value and an error, the
    message, if it is still pending, is resolved with the value: the
    resolving comes first, so this invocation never rejects the message.
    Each of header, status and trailer that is still pending is rejected
    with the translated error.  What was settled before stays as it was. *)
Theorem callback_value_and_error (err : ServiceError.t) (value : O)
    (u : UnaryCall.t O) (k : ClientStreamingCall.t O) :
  (settlesWith (Resolved value)
     (UnaryCall.defMessage u)
     (UnaryCall.defMessage (unary_callback (Some err) (Some value) u))
   ∧ settlesWith (Rejected (rpcErrorOf err))
       (UnaryCall.defHeader u)
       (UnaryCall.defHeader (unary_callback (Some err) (Some value) u))
   ∧ settlesWith (Rejected (rpcErrorOf err))
       (UnaryCall.defStatus u)
       (UnaryCall.defStatus (unary_callback (Some err) (Some value) u))
   ∧ settlesWith (Rejected (rpcErrorOf err))
       (UnaryCall.defTrailer u)
       (UnaryCall.defTrailer (unary_callback (Some err) (Some value) u)))
  ∧ (settlesWith (Resolved value)
       (ClientStreamingCall.defMessage k)
       (ClientStreamingCall.defMessage (clientStreaming_callback (Some err) (Some value) k))
     ∧ settlesWith (Rejected (rpcErrorOf err))
         (ClientStreamingCall.defHeader k)
         (ClientStreamingCall.defHeader (clientStreaming_callback (Some err) (Some value) k))
     ∧ settlesWith (Rejected (rpcErrorOf err))
         (ClientStreamingCall.defStatus k)
         (ClientStreamingCall.defStatus (clientStreaming_callback (Some err) (Some value) k))
     ∧ settlesWith (Rejected (rpcErrorOf err))
         (ClientStreamingCall.defTrailer k)
         (ClientStreamingCall.defTrailer (clientStreaming_callback (Some err) (Some value) k))).
Proof.
  unfold unary_callback, clientStreaming_callback. cbn.
  assert (Hm : ∀ d : Deferred O,
             settlesWith (Resolved value) d (rejectPending (rpcErrorOf err) (resolve value d))).
  { intros d. unfold resolve.
    rewrite rejectPending_settled by apply resolvePending_is_settled.
    apply resolvePending_settlesWith. }
  repeat split; try apply Hm; apply rejectPending_settlesWith.
Qed.

(** The status listener of a client-streaming call never looks at the
    message and never rejects anything. *)
Lemma clientStreaming_onStatus_message (val : StatusObject.t) (k : ClientStreamingCall.t O) :
  ClientStreamingCall.defMessage (clientStreaming_onStatus val k)
  = ClientStreamingCall.defMessage k
  ∧ settlesWith (Resolved (rpcStatusOf val))
      (ClientStreamingCall.defStatus k)
      (ClientStreamingCall.defStatus (clientStreaming_onStatus val k))
  ∧ settlesWith (Resolved (grpcMetaToRpc (StatusObject.metadata val)))
      (ClientStreamingCall.defTrailer k)
      (ClientStreamingCall.defTrailer (clientStreaming_onStatus val k)).
Proof. cbn. repeat split; try done; apply resolvePending_settlesWith. Qed.

(** C2 fails on the code.  A client-streaming call that was just set up
    and receives the status OK before any message resolves its status with
    OK and its trailer with the metadata, and leaves the message pending:
    no [DATA_LOSS] error is made, nothing is rejected. *)
Theorem clientStreaming_status_ok_without_payload
    (details : string) (metadata : Metadata) (a : bool) :
  clientStreaming_onStatus (StatusObject.mk GrpcStatus.OK details metadata)
    (ClientStreamingCall.mk (O:=O) Pending Pending Pending Pending a 0%nat)
  = ClientStreamingCall.mk Pending Pending
      (Resolved (RpcStatus.mk (Some "OK"%string) details))
      (Resolved (grpcMetaToRpc metadata)) a 0%nat.
Proof. reflexivity. Qed.

(** Only the completion callback settles the message of a client-streaming
    call: whatever else arrives, status OK included, the message stays
    pending. *)
Lemma clientStreaming_message_needs_callback (evs : list (ChannelEvent O))
    (k : ClientStreamingCall.t O) :
  forallb (λ ev, negb (isCallback ev)) evs = true →
  ClientStreamingCall.defMessage (clientStreaming_run evs k)
  = ClientStreamingCall.defMessage k.
Proof.
  unfold clientStreaming_run. revert k.
  induction evs as [|ev evs IH]; intros k Hev; [done|].
  cbn in Hev. apply andb_true_iff in Hev as [Hev1 Hev2].
  cbn [foldl]. rewrite IH by done.
  destruct ev; try done; cbn.
  by destruct (ClientStreamingCall.abortListener k).
Qed.

End CallbackFacts.

Lemma callback_value_and_error_witness :
  unary_callback (Some sampleServiceError) (Some "reply"%string) sampleUnaryFresh
  = UnaryCall.mk (Rejected (rpcErrorOf sampleServiceError))
                 (Resolved "reply"%string)
                 (Rejected (rpcErrorOf sampleServiceError))
                 (Rejected (rpcErrorOf sampleServiceError)) true 0.
Proof.
  destruct (callback_value_and_error sampleServiceError "reply"%string
              sampleUnaryFresh sampleClientStreamingFresh)
    as (([Hm _] & [Hh _] & [Hs _] & [Ht _]) & _).
  destruct (unary_callback (Some sampleServiceError) (Some "reply"%string) sampleUnaryFresh)
    as [h m s t a n] eqn:E.
  cbn in Hh, Hm, Hs, Ht.
  rewrite (Hh eq_refl), (Hm eq_refl), (Hs eq_refl), (Ht eq_refl).
  injection E as _ _ _ _ <- <-. reflexivity.
Defined.

(** C9 as it is stated fails when the headers have arrived before the
    callback: the header is resolved already and is not rejected. *)
Lemma callback_both_after_metadata :
  UnaryCall.defHeader
    (unary_callback (Some sampleServiceError) (Some "reply"%string)
       (unary_onMetadata sampleHeaders sampleUnaryFresh))
  = Resolved (grpcMetaToRpc sampleHeaders)
  ∧ UnaryCall.defHeader
      (unary_callback (Some sampleServiceError) (Some "reply"%string)
         (unary_onMetadata sampleHeaders sampleUnaryFresh))
    ≠ Rejected (rpcErrorOf sampleServiceError).
Proof. split; [reflexivity | discriminate]. Qed.

(** The unary call at the same input: here the listener does reject. *)
Example unary_status_ok_without_payload :
  unary_onStatus sampleStatusOK sampleUnaryFresh
  = UnaryCall.mk Pending (Rejected expectedErrorStatus) (Rejected expectedErrorStatus)
                 (Rejected expectedErrorStatus) true 0.
Proof. reflexivity. Qed.

Example clientStreaming_status_ok_sample :
  clientStreaming_onStatus sampleStatusOK sampleClientStreamingFresh
  = ClientStreamingCall.mk Pending Pending
      (Resolved (RpcStatus.mk (Some "OK") ""))
      (Resolved ∅) true 0.
Proof. by vm_compute. Qed.

(** ** Single settlement *)

(** Case analysis on every test that a listener makes. *)
Ltac case_tests :=
  repeat match goal with
         | |- context [if ?b then _ else _] => destruct b eqn:?
         end.

Section Lifecycle.
Context `{platform : Platform}.
Context {I O : Type}.
Implicit Types (u : UnaryCall.t O) (s : ServerStreamingCall.t O)
  (k : ClientStreamingCall.t O) (ev : ChannelEvent O) (evs : list (ChannelEvent O))
  (method : MethodInfo.t I O).

(** One event leaves every settled deferred result of a unary call as it
    was. *)
Lemma unary_deliver_settled ev u :
  (settled (UnaryCall.defHeader u) →
     UnaryCall.defHeader (unary_deliver ev u) = UnaryCall.defHeader u)
  ∧ (settled (UnaryCall.defMessage u) →
     UnaryCall.defMessage (unary_deliver ev u) = UnaryCall.defMessage u)
  ∧ (settled (UnaryCall.defStatus u) →
     UnaryCall.defStatus (unary_deliver ev u) = UnaryCall.defStatus u)
  ∧ (settled (UnaryCall.defTrailer u) →
     UnaryCall.defTrailer (unary_deliver ev u) = UnaryCall.defTrailer u).
Proof.
  destruct ev as [[err|] [value|]| | |val| | |]; cbn;
    unfold unary_callback, unary_onStatus;
    case_tests; cbn; repeat split; intros Hd;
    by rewrite ?resolve_settled, ?resolvePending_settled, ?rejectPending_settled.
Qed.

Lemma clientStreaming_deliver_settled ev k :
  (settled (ClientStreamingCall.defHeader k) →
     ClientStreamingCall.defHeader (clientStreaming_deliver ev k)
     = ClientStreamingCall.defHeader k)
  ∧ (settled (ClientStreamingCall.defMessage k) →
     ClientStreamingCall.defMessage (clientStreaming_deliver ev k)
     = ClientStreamingCall.defMessage k)
  ∧ (settled (ClientStreamingCall.defStatus k) →
     ClientStreamingCall.defStatus (clientStreaming_deliver ev k)
     = ClientStreamingCall.defStatus k)
  ∧ (settled (ClientStreamingCall.defTrailer k) →
     ClientStreamingCall.defTrailer (clientStreaming_deliver ev k)
     = ClientStreamingCall.defTrailer k).
Proof.
  destruct ev as [[err|] [value|]| | |val| | |]; cbn;
    unfold clientStreaming_callback;
    case_tests; cbn; repeat split; intros Hd;
    by rewrite ?resolve_settled, ?resolvePending_settled, ?rejectPending_settled.
Qed.

(** The same for a server-streaming call, whether the listener returns or
    throws; and a closed stream stays what it is. *)
Lemma serverStreaming_deliver_settled method ev s :
  (settled (ServerStreamingCall.defHeader s) →
     ServerStreamingCall.defHeader (stateAfter (serverStreaming_deliver method ev s) s)
     = ServerStreamingCall.defHeader s)
  ∧ (settled (ServerStreamingCall.defStatus s) →
     ServerStreamingCall.defStatus (stateAfter (serverStreaming_deliver method ev s) s)
     = ServerStreamingCall.defStatus s)
  ∧ (settled (ServerStreamingCall.defTrailer s) →
     ServerStreamingCall.defTrailer (stateAfter (serverStreaming_deliver method ev s) s)
     = ServerStreamingCall.defTrailer s)
  ∧ (closed (ServerStreamingCall.outStream s) = true →
     ServerStreamingCall.outStream (stateAfter (serverStreaming_deliver method ev s) s)
     = ServerStreamingCall.outStream s).
Proof.
  destruct ev as [err value| | |val|err| |arg1]; cbn;
    unfold serverStreaming_onError, serverStreaming_onData, serverStreaming_onEnd;
    try destruct (classifyError err) as [e|]; try destruct (MethodInfo.O_is method arg1);
    try destruct (ServerStreamingCall.abortListener s);
    cbn; repeat split; intros Hd;
    rewrite ?resolve_settled, ?resolvePending_settled, ?rejectPending_settled by done;
    rewrite ?Hd, ?notifyMessage_closed by done; done.
Qed.

Lemma unary_run_settled evs u :
  (settled (UnaryCall.defHeader u) →
     UnaryCall.defHeader (unary_run evs u) = UnaryCall.defHeader u)
  ∧ (settled (UnaryCall.defMessage u) →
     UnaryCall.defMessage (unary_run evs u) = UnaryCall.defMessage u)
  ∧ (settled (UnaryCall.defStatus u) →
     UnaryCall.defStatus (unary_run evs u) = UnaryCall.defStatus u)
  ∧ (settled (UnaryCall.defTrailer u) →
     UnaryCall.defTrailer (unary_run evs u) = UnaryCall.defTrailer u).
Proof.
  unfold unary_run. revert u. induction evs as [|ev evs IH]; intros u; [done|].
  cbn [foldl].
  destruct (unary_deliver_settled ev u) as (Hh & Hm & Hs & Ht).
  destruct (IH (unary_deliver ev u)) as (IHh & IHm & IHs & IHt).
  repeat split; intros Hd.
  - rewrite <-(Hh Hd). apply IHh. by rewrite Hh.
  - rewrite <-(Hm Hd). apply IHm. by rewrite Hm.
  - rewrite <-(Hs Hd). apply IHs. by rewrite Hs.
  - rewrite <-(Ht Hd). apply IHt. by rewrite Ht.
Qed.

Lemma clientStreaming_run_settled evs k :
  (settled (ClientStreamingCall.defHeader k) →
     ClientStreamingCall.defHeader (clientStreaming_run evs k)
     = ClientStreamingCall.defHeader k)
  ∧ (settled (ClientStreamingCall.defMessage k) →
     ClientStreamingCall.defMessage (clientStreaming_run evs k)
     = ClientStreamingCall.defMessage k)
  ∧ (settled (ClientStreamingCall.defStatus k) →
     ClientStreamingCall.defStatus (clientStreaming_run evs k)
     = ClientStreamingCall.defStatus k)
  ∧ (settled (ClientStreamingCall.defTrailer k) →
     ClientStreamingCall.defTrailer (clientStreaming_run evs k)
     = ClientStreamingCall.defTrailer k).
Proof.
  unfold clientStreaming_run. revert k. induction evs as [|ev evs IH]; intros k; [done|].
  cbn [foldl].
  destruct (clientStreaming_deliver_settled ev k) as (Hh & Hm & Hs & Ht).
  destruct (IH (clientStreaming_deliver ev k)) as (IHh & IHm & IHs & IHt).
  repeat split; intros Hd.
  - rewrite <-(Hh Hd). apply IHh. by rewrite Hh.
  - rewrite <-(Hm Hd). apply IHm. by rewrite Hm.
  - rewrite <-(Hs Hd). apply IHs. by rewrite Hs.
  - rewrite <-(Ht Hd). apply IHt. by rewrite Ht.
Qed.

Lemma serverStreaming_run_settled method evs s :
  (settled (ServerStreamingCall.defHeader s) →
     ServerStreamingCall.defHeader (serverStreaming_run method evs s)
     = ServerStreamingCall.defHeader s)
  ∧ (settled (ServerStreamingCall.defStatus s) →
     ServerStreamingCall.defStatus (serverStreaming_run method evs s)
     = ServerStreamingCall.defStatus s)
  ∧ (settled (ServerStreamingCall.defTrailer s) →
     ServerStreamingCall.defTrailer (serverStreaming_run method evs s)
     = ServerStreamingCall.defTrailer s)
  ∧ (closed (ServerStreamingCall.outStream s) = true →
     ServerStreamingCall.outStream (serverStreaming_run method evs s)
     = ServerStreamingCall.outStream s).
Proof.
  unfold serverStreaming_run. revert s. induction evs as [|ev evs IH]; intros s; [done|].
  cbn [foldl].
  destruct (serverStreaming_deliver_settled method ev s) as (Hh & Hs & Ht & Ho).
  destruct (IH (stateAfter (serverStreaming_deliver method ev s) s))
    as (IHh & IHs & IHt & IHo).
  repeat split; intros Hd.
  - rewrite <-(Hh Hd). apply IHh. by rewrite Hh.
  - rewrite <-(Hs Hd). apply IHs. by rewrite Hs.
  - rewrite <-(Ht Hd). apply IHt. by rewrite Ht.
  - rewrite <-(Ho Hd). apply IHo. by rewrite Ho.
Qed.

(** Delivering a settling event a second time, right after the first, is
    a no-op. *)
Lemma unary_deliver_twice ev u :
  isSettlingEvent ev = true →
  unary_deliver ev (unary_deliver ev u) = unary_deliver ev u.
Proof.
  intros Hev. destruct u as [h m s t a n].
  destruct ev as [[err|] [value|]| | |val| | |]; try done; cbn;
    unfold unary_callback, unary_onMetadata, unary_onStatus; cbn.
  1-4: by destruct h, m, s, t.
  destruct (StatusObject.code val =? GrpcStatus.OK) eqn:E;
    destruct m, s, t; cbn; rewrite ?E; reflexivity.
Qed.

Lemma clientStreaming_deliver_twice ev k :
  isSettlingEvent ev = true →
  clientStreaming_deliver ev (clientStreaming_deliver ev k) = clientStreaming_deliver ev k.
Proof.
  intros Hev. destruct k as [h m s t a n].
  destruct ev as [[err|] [value|]| | |val| | |]; try done; cbn;
    unfold clientStreaming_callback, clientStreaming_onMetadata, clientStreaming_onStatus;
    cbn; by destruct h, m, s, t.
Qed.

Lemma serverStreaming_deliver_twice method ev s :
  isSettlingEvent ev = true →
  stateAfter
    (serverStreaming_deliver method ev (stateAfter (serverStreaming_deliver method ev s) s))
    (stateAfter (serverStreaming_deliver method ev s) s)
  = stateAfter (serverStreaming_deliver method ev s) s.
Proof.
  intros Hev. destruct s as [h [msgs cl] st t a n].
  destruct ev as [err value| | |val|err| |arg1]; try done; cbn;
    unfold serverStreaming_onError, serverStreaming_onEnd, serverStreaming_onMetadata,
      serverStreaming_onStatus; cbn.
  - by destruct h.
  - by destruct st, t.
  - destruct (classifyError err) as [e|]; cbn; [|done].
    by destruct h, cl, st, t.
  - by destruct cl.
Qed.

(** C3.  In every call shape, a deferred result that has been settled,
    and an output stream that has been closed, is the same after any
    further events, whichever they are and however many: no event settles
    it again or changes its outcome. *)
Theorem single_settlement method evs u s k :
  ((settled (UnaryCall.defHeader u) →
      UnaryCall.defHeader (unary_run evs u) = UnaryCall.defHeader u)
   ∧ (settled (UnaryCall.defMessage u) →
      UnaryCall.defMessage (unary_run evs u) = UnaryCall.defMessage u)
   ∧ (settled (UnaryCall.defStatus u) →
      UnaryCall.defStatus (unary_run evs u) = UnaryCall.defStatus u)
   ∧ (settled (UnaryCall.defTrailer u) →
      UnaryCall.defTrailer (unary_run evs u) = UnaryCall.defTrailer u))
  ∧ ((settled (ServerStreamingCall.defHeader s) →
        ServerStreamingCall.defHeader (serverStreaming_run method evs s)
        = ServerStreamingCall.defHeader s)
     ∧ (settled (ServerStreamingCall.defStatus s) →
        ServerStreamingCall.defStatus (serverStreaming_run method evs s)
        = ServerStreamingCall.defStatus s)
     ∧ (settled (ServerStreamingCall.defTrailer s) →
        ServerStreamingCall.defTrailer (serverStreaming_run method evs s)
        = ServerStreamingCall.defTrailer s)
     ∧ (closed (ServerStreamingCall.outStream s) = true →
        ServerStreamingCall.outStream (serverStreaming_run method evs s)
        = ServerStreamingCall.outStream s))
  ∧ ((settled (ClientStreamingCall.defHeader k) →
        ClientStreamingCall.defHeader (clientStreaming_run evs k)
        = ClientStreamingCall.defHeader k)
     ∧ (settled (ClientStreamingCall.defMessage k) →
        ClientStreamingCall.defMessage (clientStreaming_run evs k)
        = ClientStreamingCall.defMessage k)
     ∧ (settled (ClientStreamingCall.defStatus k) →
        ClientStreamingCall.defStatus (clientStreaming_run evs k)
        = ClientStreamingCall.defStatus k)
     ∧ (settled (ClientStreamingCall.defTrailer k) →
        ClientStreamingCall.defTrailer (clientStreaming_run evs k)
        = ClientStreamingCall.defTrailer k)).
Proof.
  split; [apply unary_run_settled|].
  split; [apply serverStreaming_run_settled | apply clientStreaming_run_settled].
Qed.

(** C6.  Once the output stream of a server-streaming call is closed, no
    data, error or end event, and no other event, changes it: the messages
    pushed and the way it was closed stay what they are. *)
Theorem stream_terminal_idempotence method evs s :
  closed (ServerStreamingCall.outStream s) = true →
  ServerStreamingCall.outStream (serverStreaming_run method evs s)
  = ServerStreamingCall.outStream s.
Proof. apply serverStreaming_run_settled. Qed.

End Lifecycle.

(** ** Setting a call up, and cancelling it *)

Section Setup.
Context `{platform : Platform}.
Context {I O : Type}.
Variable normalizeKey : string → string.
Variable validate : string → string → bool.
Implicit Types (method : MethodInfo.t I O) (evs : list (ChannelEvent O)).

(** C7.  [duplex] throws the error "NOT IMPLEMENTED" for every method and
    every options, and it has done nothing before: no client is made and
    no call is opened. *)
Theorem duplex_not_implemented method (options : GrpcOptions.t) :
  snd (duplex method options) = Threw (Error "NOT IMPLEMENTED")
  ∧ fst (duplex method options) = [].
Proof. split; reflexivity. Qed.

(** The other shapes, for comparison, make a client and open a call first
    thing once the metadata is encoded. *)
Lemma unary_opens_call method (input : I) (options : GrpcOptions.t) (gMeta : Metadata) :
  gMetaOf normalizeKey validate method options = Returned gMeta →
  ∃ rest u,
    unary normalizeKey validate method input options
    = (NewClient (GrpcOptions.host options)
         :: MakeUnaryRequest (methodPath method) input gMeta :: rest,
       Returned u).
Proof. intros H. unfold unary. cbv zeta. rewrite H. cbn. eauto. Qed.

(** When encoding the metadata throws, a call shape has done nothing
    either. *)
Lemma unary_refused method (input : I) (options : GrpcOptions.t) (t : Thrown) :
  gMetaOf normalizeKey validate method options = Threw t →
  unary normalizeKey validate method input options = ([], Threw t).
Proof. intros H. unfold unary. cbv zeta. by rewrite H. Qed.

(** The events of a history never change whether the abort listener is
    there, and [cancel] is called once for each abort event that reaches
    the listener. *)
Lemma unary_run_cancelled evs (u : UnaryCall.t O) :
  UnaryCall.cancelled (unary_run evs u)
  = (UnaryCall.cancelled u + if UnaryCall.abortListener u then abortsIn evs else 0)%nat.
Proof.
  unfold unary_run, abortsIn. revert u.
  induction evs as [|ev evs IH]; intros u; cbn [foldl].
  - cbn. destruct (UnaryCall.abortListener u); lia.
  - rewrite IH.
    destruct ev as [[err|] [value|]| | |val| | |]; cbn;
      unfold unary_onStatus;
      case_tests; cbn in *; try congruence; lia.
Qed.

Lemma serverStreaming_run_cancelled method evs (s : ServerStreamingCall.t O) :
  ServerStreamingCall.cancelled (serverStreaming_run method evs s)
  = (ServerStreamingCall.cancelled s
     + if ServerStreamingCall.abortListener s then abortsIn evs else 0)%nat.
Proof.
  unfold serverStreaming_run, abortsIn. revert s.
  induction evs as [|ev evs IH]; intros s; cbn [foldl].
  - cbn. destruct (ServerStreamingCall.abortListener s); lia.
  - rewrite IH.
    destruct ev as [err value| | |val|err| |arg1]; cbn;
      unfold serverStreaming_onError, serverStreaming_onData;
      try destruct (classifyError err) as [e|];
      try destruct (MethodInfo.O_is method arg1);
      cbn;
      case_tests; cbn in *; try congruence; lia.
Qed.

Lemma clientStreaming_run_cancelled evs (k : ClientStreamingCall.t O) :
  ClientStreamingCall.cancelled (clientStreaming_run evs k)
  = (ClientStreamingCall.cancelled k
     + if ClientStreamingCall.abortListener k then abortsIn evs else 0)%nat.
Proof.
  unfold clientStreaming_run, abortsIn. revert k.
  induction evs as [|ev evs IH]; intros k; cbn [foldl].
  - cbn. destruct (ClientStreamingCall.abortListener k); lia.
  - rewrite IH.
    destruct ev as [[err|] [value|]| | |val| | |]; cbn;
      case_tests; cbn in *; try congruence; lia.
Qed.

(** C10.  In each call shape, a signal that is already aborted when the
    call is set up is treated like one that is not: the set-up only
    registers the abort listener and does not call [cancel], and from then
    on [cancel] has been called as many times as the abort event has
    fired, so never if it does not fire again. *)
Theorem cancel_only_on_abort_event method (input : I) (host : string)
    (meta : option RpcMetadata) evs :
  (unary normalizeKey validate method input
     (GrpcOptions.mk host meta (Some (mkAbortSignal true)))
   = unary normalizeKey validate method input
       (GrpcOptions.mk host meta (Some (mkAbortSignal false)))
   ∧ ∀ u, snd (unary normalizeKey validate method input
                 (GrpcOptions.mk host meta (Some (mkAbortSignal true)))) = Returned u →
          UnaryCall.abortListener u = true
          ∧ UnaryCall.cancelled u = 0%nat
          ∧ UnaryCall.cancelled (unary_run evs u) = abortsIn evs)
  ∧ (serverStreaming normalizeKey validate method input
       (GrpcOptions.mk host meta (Some (mkAbortSignal true)))
     = serverStreaming normalizeKey validate method input
         (GrpcOptions.mk host meta (Some (mkAbortSignal false)))
     ∧ ∀ s, snd (serverStreaming normalizeKey validate method input
                   (GrpcOptions.mk host meta (Some (mkAbortSignal true)))) = Returned s →
            ServerStreamingCall.abortListener s = true
            ∧ ServerStreamingCall.cancelled s = 0%nat
            ∧ ServerStreamingCall.cancelled (serverStreaming_run method evs s)
              = abortsIn evs)
  ∧ (clientStreaming normalizeKey validate method
       (GrpcOptions.mk host meta (Some (mkAbortSignal true)))
     = clientStreaming normalizeKey validate method
         (GrpcOptions.mk host meta (Some (mkAbortSignal false)))
     ∧ ∀ k, snd (clientStreaming normalizeKey validate method
                   (GrpcOptions.mk host meta (Some (mkAbortSignal true)))) = Returned k →
            ClientStreamingCall.abortListener k = true
            ∧ ClientStreamingCall.cancelled k = 0%nat
            ∧ ClientStreamingCall.cancelled (clientStreaming_run evs k) = abortsIn evs).
Proof.
  split; [|split]; (split; [reflexivity|]).
  - intros u. unfold unary. cbv zeta.
    destruct (gMetaOf _ _ _ _) as [g|]; [|discriminate].
    intros [= <-]. split; [done|]. split; [done|]. by rewrite unary_run_cancelled.
  - intros s. unfold serverStreaming. cbv zeta.
    destruct (gMetaOf _ _ _ _) as [g|]; [|discriminate].
    intros [= <-]. split; [done|]. split; [done|].
    by rewrite serverStreaming_run_cancelled.
  - intros k. unfold clientStreaming. cbv zeta.
    destruct (gMetaOf _ _ _ _) as [g|]; [|discriminate].
    intros [= <-]. split; [done|]. split; [done|].
    by rewrite clientStreaming_run_cancelled.
Qed.

End Setup.

(** ** The theorems on sample calls *)

Lemma single_settlement_witness :
  UnaryCall.defStatus
    (unary_run [StatusEvent sampleStatusOK; Callback (Some sampleServiceError) None;
                StatusEvent sampleStatusNotFound]
       (unary_onStatus sampleStatusNotFound sampleUnaryFresh))
  = UnaryCall.defStatus (unary_onStatus sampleStatusNotFound sampleUnaryFresh)
  ∧ ServerStreamingCall.outStream
      (serverStreaming_run sampleMethod [DataEvent "late"%string; EndEvent]
         (stateAfter (serverStreaming_deliver sampleMethod (ErrorEvent samplePlainError)
                        sampleServerStreamingFresh) sampleServerStreamingFresh))
    = ServerStreamingCall.outStream
        (stateAfter (serverStreaming_deliver sampleMethod (ErrorEvent samplePlainError)
                       sampleServerStreamingFresh) sampleServerStreamingFresh).
Proof.
  split.
  - apply (single_settlement sampleMethod
             [StatusEvent sampleStatusOK; Callback (Some sampleServiceError) None;
              StatusEvent sampleStatusNotFound]
             (unary_onStatus sampleStatusNotFound sampleUnaryFresh)
             sampleServerStreamingFresh sampleClientStreamingFresh).
    discriminate.
  - apply (single_settlement sampleMethod [DataEvent "late"%string; EndEvent]
             sampleUnaryFresh
             (stateAfter (serverStreaming_deliver sampleMethod (ErrorEvent samplePlainError)
                            sampleServerStreamingFresh) sampleServerStreamingFresh)
             sampleClientStreamingFresh).
    reflexivity.
Defined.

Lemma stream_terminal_idempotence_witness :
  ServerStreamingCall.outStream
    (serverStreaming_run sampleMethod
       [DataEvent "c"%string; ErrorEvent samplePlainError; EndEvent]
       (serverStreaming_run sampleMethod
          [DataEvent "a"%string; DataEvent "b"%string; EndEvent]
          sampleServerStreamingFresh))
  = mkStream ["a"; "b"]%string Completed.
Proof.
  rewrite (stream_terminal_idempotence sampleMethod
             [DataEvent "c"%string; ErrorEvent samplePlainError; EndEvent]
             (serverStreaming_run sampleMethod
                [DataEvent "a"%string; DataEvent "b"%string; EndEvent]
                sampleServerStreamingFresh)).
  - reflexivity.
  - reflexivity.
Defined.

Lemma cancel_only_on_abort_event_witness :
  UnaryCall.cancelled
    (unary_run [MetadataEvent sampleHeaders; AbortEvent; StatusEvent sampleStatusNotFound]
       sampleUnaryFresh)
  = 1%nat.
Proof.
  destruct (cancel_only_on_abort_event (I:=string) channel_normalizeKey channel_validate
              sampleMethod "in" "localhost:50051" (Some {[ "x-trace" := Single "t1" ]})
              [MetadataEvent sampleHeaders; AbortEvent; StatusEvent sampleStatusNotFound])
    as ((_ & H) & _).
  destruct (H sampleUnaryFresh) as (_ & _ & ->).
  - by vm_compute.
  - reflexivity.
Defined.

(** Server-stream message ordering: the messages are pushed in the order
    of the data events, and the end event closes the stream without a
    status. *)
Example serverStreaming_data_data_end :
  let s := serverStreaming_run sampleMethod
             [DataEvent "A"%string; DataEvent "B"%string; EndEvent]
             sampleServerStreamingFresh in
  ServerStreamingCall.outStream s = mkStream ["A"; "B"]%string Completed
  ∧ ServerStreamingCall.defStatus s = Pending.
Proof. split; reflexivity. Qed.

(** Two status events: the second is ignored. *)
Example unary_second_status_ignored :
  unary_run [StatusEvent sampleStatusNotFound; StatusEvent sampleStatusNotFound]
    (unary_callback None (Some "reply"%string) sampleUnaryFresh)
  = unary_run [StatusEvent sampleStatusNotFound]
      (unary_callback None (Some "reply"%string) sampleUnaryFresh).
Proof. reflexivity. Qed.

(** A message of the wrong type makes the data listener throw, and the
    call is as it was. *)
Example serverStreaming_data_assertion :
  serverStreaming_deliver (I:=string)
    (MethodInfo.mk "spec.Greeter" "Stream" None (λ o : string, String.eqb o "ok"))
    (DataEvent "bad"%string) sampleServerStreamingFresh
  = Threw AssertionFailed.
Proof. reflexivity. Qed.

Example sample_unary :
  unary channel_normalizeKey channel_validate sampleMethod "in" (sampleOptions None)
  = ([NewClient "localhost:50051";
      MakeUnaryRequest "/spec.Greeter/Hello" "in"
        {| internalRepr := {[ "x-trace" := ["t1"] ]}; idempotentRequest := Some true |};
      CallAddListener "metadata"; CallAddListener "status"],
     Returned (UnaryCall.mk Pending Pending Pending Pending false 0)).
Proof. vm_compute. reflexivity. Qed.


(** * Further properties *)

(** ** Encoding metadata: errors, merging into a base, the options *)

Section EncodeFacts.
Context `{platform : Platform}.
Variable normalizeKey : string → string.
Variable validate : string → string → bool.

Local Abbreviation add := (Metadata_add normalizeKey validate).
Local Abbreviation encode := (rpcMetaToGrpc normalizeKey validate).
Local Abbreviation entry := (rpcMetaToGrpc_entry normalizeKey validate).

(** Once [add] has thrown, the rest of the inner loop is not run. *)
Lemma add_loop_threw (k : string) (l : list string) (t : Thrown) :
  foldl (λ acc vv, to' ← acc; add k vv to') (Threw t) l = Threw t.
Proof. induction l as [|s l IH]; [done|]. cbn. apply IH. Qed.

(** The inner loop on values that are all valid. *)
Lemma add_loop_valid (k : string) (l : list string) (to : Metadata) :
  Forall (λ s, validate (normalizeKey k) s = true) l →
  l ≠ [] →
  foldl (λ acc vv, to' ← acc; add k vv to') (Returned to) l
  = Returned {| internalRepr :=
                  <[normalizeKey k :=
                      default [] (internalRepr to !! normalizeKey k) ++ l]> (internalRepr to);
                idempotentRequest := idempotentRequest to |}.
Proof.
  revert to. induction l as [|s l IH]; intros to Hv Hne; [done|].
  apply Forall_cons in Hv as [Hs Hv].
  cbn [foldl]. unfold mbind at 2, Completion_bind.
  unfold Metadata_add at 2. cbv zeta. rewrite Hs.
  destruct l as [|s' l']; [done|].
  rewrite IH by done. cbn.
  rewrite lookup_insert_eq. cbn. rewrite insert_insert_eq.
  by rewrite <-app_assoc.
Qed.

(** The inner loop on values one of which is not valid. *)
Lemma add_loop_invalid (k : string) (l : list string) (to : Metadata) :
  ¬ Forall (λ s, validate (normalizeKey k) s = true) l →
  foldl (λ acc vv, to' ← acc; add k vv to') (Returned to) l = Threw MetadataRefused.
Proof.
  revert to. induction l as [|s l IH]; intros to Hv.
  - destruct Hv. constructor.
  - cbn [foldl]. unfold mbind at 2, Completion_bind.
    unfold Metadata_add at 2. cbv zeta.
    destruct (validate (normalizeKey k) s) eqn:Hs.
    + apply IH. intros Hl. apply Hv. by constructor.
    + apply add_loop_threw.
Qed.

(** One key of the outer loop: it returns when all strings of the value
    are valid, and then the strings are appended under the normalised
    key; it throws otherwise. *)
Lemma entry_valid (k : string) (v : RpcMetadataValue) (to : Metadata) :
  Forall (λ s, validate (normalizeKey k) s = true) (valuesOf v) →
  entry k v to
  = Returned {| internalRepr :=
                  match valuesOf v with
                  | [] => internalRepr to
                  | l => <[normalizeKey k :=
                             default [] (internalRepr to !! normalizeKey k) ++ l]>
                           (internalRepr to)
                  end;
                idempotentRequest := idempotentRequest to |}.
Proof.
  intros Hv. destruct v as [s|l]; cbn [rpcMetaToGrpc_entry valuesOf] in *.
  - apply Forall_cons in Hv as [Hs _]. unfold Metadata_add. cbv zeta. by rewrite Hs.
  - destruct l as [|s l]; [by destruct to|].
    by rewrite add_loop_valid.
Qed.

Lemma entry_invalid (k : string) (v : RpcMetadataValue) (to : Metadata) :
  ¬ Forall (λ s, validate (normalizeKey k) s = true) (valuesOf v) →
  entry k v to = Threw MetadataRefused.
Proof.
  intros Hv. destruct v as [s|l]; cbn [rpcMetaToGrpc_entry valuesOf] in *.
  - unfold Metadata_add. cbv zeta.
    destruct (validate (normalizeKey k) s) eqn:Hs; [|done].
    destruct Hv. by repeat constructor.
  - by apply add_loop_invalid.
Qed.

Lemma encode_passes (from : RpcMetadata) (base : option Metadata) :
  passes normalizeKey validate from → ∃ to, encode from base = Returned to.
Proof.
  unfold rpcMetaToGrpc. cbv zeta.
  induction from as [|k v from Hk Hfirst IH] using map_first_key_ind; intros Hp.
  - rewrite map_fold_empty. eauto.
  - rewrite map_fold_insert_first_key by done.
    apply map_Forall_insert in Hp as [Hv Hp]; [|done].
    destruct (IH Hp) as [to ->]. cbn. rewrite entry_valid by done. eauto.
Qed.

Lemma encode_refused (from : RpcMetadata) (base : option Metadata) :
  ¬ passes normalizeKey validate from → encode from base = Threw MetadataRefused.
Proof.
  unfold rpcMetaToGrpc. cbv zeta.
  induction from as [|k v from Hk Hfirst IH] using map_first_key_ind; intros Hp.
  - destruct Hp. apply map_Forall_empty.
  - rewrite map_fold_insert_first_key by done.
    destruct (decide (passes normalizeKey validate from)) as [Hrest|Hrest].
    + destruct (encode_passes from base Hrest) as [to Hto].
      unfold rpcMetaToGrpc in Hto. cbv zeta in Hto. rewrite Hto. cbn.
      apply entry_invalid. intros Hv. apply Hp.
      by apply map_Forall_insert.
    + by rewrite IH.
Qed.

(** The options of the base are those of the result. *)
Lemma encode_options (from : RpcMetadata) (base : option Metadata) (to : Metadata) :
  encode from base = Returned to →
  idempotentRequest to = idempotentRequest (default (new_Metadata None) base).
Proof.
  unfold rpcMetaToGrpc. cbv zeta. revert to.
  induction from as [|k v from Hk Hfirst IH] using map_first_key_ind; intros to.
  - rewrite map_fold_empty. by intros [= <-].
  - rewrite map_fold_insert_first_key by done.
    destruct (map_fold _ _ from) as [to0|t]; [|done]. cbn.
    destruct (decide (Forall (λ s, validate (normalizeKey k) s = true) (valuesOf v)))
      as [Hv|Hv].
    + rewrite entry_valid by done. intros [= <-]. cbn. by apply IH.
    + by rewrite entry_invalid.
Qed.

(** X1.  [rpcMetaToGrpc] returns when every string of the metadata passes
    the validation of [Metadata.add] under its normalised key, and throws
    what [add] throws as soon as one does not: one refused header among
    many makes the whole conversion fail. *)
Theorem rpcMetaToGrpc_throws_iff (from : RpcMetadata) (base : option Metadata) :
  (passes normalizeKey validate from → ∃ to, encode from base = Returned to)
  ∧ (¬ passes normalizeKey validate from → encode from base = Threw MetadataRefused).
Proof. split; [apply encode_passes | apply encode_refused]. Qed.

Lemma encode_merge (from : RpcMetadata) (base : option Metadata) :
  keysNormal normalizeKey from →
  passes normalizeKey validate from →
  ∃ to, encode from base = Returned to
        ∧ ∀ j, internalRepr to !! j
               = mergedValues (internalRepr (default (new_Metadata None) base) !! j)
                              (from !! j).
Proof.
  unfold rpcMetaToGrpc. cbv zeta.
  induction from as [|k v from Hk Hfirst IH] using map_first_key_ind; intros Hn Hp.
  - rewrite map_fold_empty. eexists; split; [done|]. intros j.
    by rewrite lookup_empty.
  - rewrite map_fold_insert_first_key by done.
    apply map_Forall_insert in Hn as [Hnk Hn]; [|done].
    apply map_Forall_insert in Hp as [Hv Hp]; [|done].
    destruct (IH Hn Hp) as (to & -> & Hto). cbn.
    rewrite entry_valid by done. eexists; split; [done|].
    intros j. cbn. rewrite Hnk.
    destruct (decide (j = k)) as [->|Hj].
    + rewrite lookup_insert_eq. cbn. specialize (Hto k). rewrite Hk in Hto. cbn in Hto.
      destruct (valuesOf v) as [|s l]; [done|].
      by rewrite lookup_insert_eq, Hto.
    + rewrite lookup_insert_ne by done. rewrite <-Hto.
      destruct (valuesOf v) as [|s l]; [done|].
      by rewrite lookup_insert_ne.
Qed.

(** X2.  [rpcMetaToGrpc] merges into its base: for metadata whose keys are
    in normal form and whose strings are valid, every header of the base is
    still there afterwards, the strings of the caller's value come after
    the values the base had under that name, in their order, a key with an
    empty collection adds nothing, and the options of the base are kept. *)
Theorem rpcMetaToGrpc_merges_into_base (from : RpcMetadata) (base : Metadata) :
  keysNormal normalizeKey from →
  passes normalizeKey validate from →
  ∃ to, encode from (Some base) = Returned to
        ∧ idempotentRequest to = idempotentRequest base
        ∧ ∀ j, internalRepr to !! j = mergedValues (internalRepr base !! j) (from !! j).
Proof.
  intros Hn Hp. destruct (encode_merge from (Some base) Hn Hp) as (to & Hto & Hrepr).
  exists to. split; [done|]. split; [|done].
  by apply (encode_options from (Some base)).
Qed.

(** X5.  Encoding the decoding of what the channel holds gives the same
    headers back: on a [Metadata] that holds string values as [add] leaves
    them and has no name [__proto__], over a channel library that returns
    from [toHttp2Headers] the strings stored under each name,
    [grpcMetaToRpc] followed by [rpcMetaToGrpc] restores every name with
    its values in order; only the options of the object are not carried
    over. *)
Theorem encode_decode (render : string → list string → HeaderValue number)
    (m : Metadata) :
  rendersStoredValues validate render →
  wellFormed normalizeKey validate m →
  internalRepr m !! "__proto__" = None →
  encode (grpcMetaToRpc m) None
  = Returned {| internalRepr := internalRepr m; idempotentRequest := None |}.
Proof.
  intros [Hrender Hlib] Hm Hproto.
  assert (Hlookup : ∀ k, grpcMetaToRpc m !! k
                         = internalRepr m !! k ≫= λ l, grpcMetaToRpc_value (render k l)).
  { intros k. unfold grpcMetaToRpc. cbv zeta. rewrite grpcMetaToRpc_headers_at.
    destruct (String.eqb k "__proto__") eqn:Hk.
    - apply String.eqb_eq in Hk as ->. by rewrite Hproto.
    - apply String.eqb_neq in Hk. specialize (Hlib m k Hk).
      destruct (internalRepr m !! k) as [l|] eqn:Hl; cbn.
      + destruct (Hm k l Hl) as (_ & Hne & Hv). by rewrite Hlib.
      + by rewrite Hlib. }
  assert (Hacc : accepted normalizeKey validate (grpcMetaToRpc m)).
  { intros k v Hk. rewrite Hlookup in Hk.
    destruct (internalRepr m !! k) as [l|] eqn:Hl; [|done]. cbn in Hk.
    destruct (Hm k l Hl) as (Hn & Hne & Hv). split; [done|].
    destruct (render_decodes render k l (Hrender k l Hne)) as (v' & Hv' & Hs & _).
    rewrite Hv' in Hk. injection Hk as <-. by rewrite Hs. }
  destruct (rpcMetaToGrpc_accepted normalizeKey validate _ Hacc) as (to & Hto & Hrepr).
  rewrite Hto. f_equal.
  pose proof (encode_options _ _ _ Hto) as Hopt. cbn in Hopt.
  destruct to as [repr opts]; cbn in *. subst opts. f_equal.
  rewrite Hrepr. apply map_eq; intros k.
  rewrite lookup_omap, Hlookup.
  destruct (internalRepr m !! k) as [l|] eqn:Hk; [|done]. cbn.
  destruct (Hm k l Hk) as (_ & Hne & _).
  destruct (render_decodes render k l (Hrender k l Hne)) as (v' & -> & Hs & _).
  cbn. rewrite Hs. by destruct l.
Qed.

(** What a round trip yields is accepted again, and a round trip leaves
    it as it is. *)
Lemma normalForm_accepted (render : string → list string → HeaderValue number)
    (from : RpcMetadata) :
  (∀ k l, l ≠ [] → headerStrings (render k l) = Some l) →
  accepted normalizeKey validate from →
  accepted normalizeKey validate (normalForm render from).
Proof.
  intros Hrender Hacc k v'. unfold normalForm. rewrite map_lookup_imap.
  destruct (from !! k) as [v|] eqn:Hk; [|done]. cbn.
  destruct (String.eqb k "__proto__"); [done|].
  destruct (Hacc k v Hk) as [Hn Hv].
  destruct (valuesOf v) as [|s l] eqn:Hvs; [done|].
  destruct (render_decodes render k (s :: l) (Hrender k (s :: l) ltac:(done)))
    as (v'' & -> & Hs & _).
  intros [= <-]. split; [done|]. by rewrite Hs.
Qed.

Lemma normalForm_idempotent (render : string → list string → HeaderValue number)
    (from : RpcMetadata) :
  (∀ k l, l ≠ [] → headerStrings (render k l) = Some l) →
  normalForm render (normalForm render from) = normalForm render from.
Proof.
  intros Hrender. apply map_eq; intros k.
  unfold normalForm at 1. rewrite map_lookup_imap.
  unfold normalForm. rewrite map_lookup_imap.
  destruct (from !! k) as [v|] eqn:Hk; [|done]. cbn.
  destruct (String.eqb k "__proto__") eqn:Hproto; [done|].
  destruct (valuesOf v) as [|s l] eqn:Hvs; [done|].
  destruct (render_decodes render k (s :: l) (Hrender k (s :: l) ltac:(done)))
    as (v' & Hv' & Hs & _).
  rewrite Hv'. cbn. by rewrite Hs.
Qed.

(** X6.  One round trip brings metadata into its normal form: for an
    accepted mapping, over a channel library that returns from
    [toHttp2Headers] the strings stored under each name, encoding and
    decoding the result of a round trip gives that result again. *)
Theorem roundTrip_idempotent (render : string → list string → HeaderValue number)
    (from : RpcMetadata) :
  rendersStoredValues validate render →
  accepted normalizeKey validate from →
  ∃ m, roundTrip normalizeKey validate from = Returned m
       ∧ roundTrip normalizeKey validate m = Returned m.
Proof.
  intros Hlib Hacc. exists (normalForm render from).
  split; [by apply roundTrip_accepted|].
  assert (Hacc' : accepted normalizeKey validate (normalForm render from)).
  { apply normalForm_accepted; [apply Hlib|done]. }
  rewrite (roundTrip_accepted normalizeKey validate render _ Hlib Hacc').
  f_equal. apply normalForm_idempotent. apply Hlib.
Qed.

(** X7.  The loop of [grpcMetaToRpc] works header by header: a header that
    is [undefined] is left out, a number is kept as the string that prints
    it, a string and an array of strings are kept as they are, the name
    [__proto__] is left out whatever it holds, and no other key appears in
    the result. *)
Theorem grpcMetaToRpc_headers_lookup (h2 : gmap string (HeaderValue number))
    (k : string) :
  grpcMetaToRpc_headers h2 !! k
  = if String.eqb k "__proto__" then None
    else match h2 !! k with
         | None | Some HUndefined => None
         | Some (HNumber n) => Some (Single (Number_toString n))
         | Some (HString s) => Some (Single s)
         | Some (HArray l) => Some (Many l)
         end.
Proof.
  rewrite grpcMetaToRpc_headers_at.
  destruct (String.eqb k "__proto__"); [done|].
  by destruct (h2 !! k) as [[]|].
Qed.

End EncodeFacts.

(** ** The request metadata and the set-up of a call *)

Section SetupFacts.
Context `{platform : Platform}.
Context {I O : Type}.
Variable normalizeKey : string → string.
Variable validate : string → string → bool.
Implicit Types (method : MethodInfo.t I O) (options : GrpcOptions.t).

(** X3.  The metadata that a call shape hands to the channel carries the
    idempotency hint, set exactly for a method marked IDEMPOTENT, and, when
    the caller's keys are in normal form, the caller's headers and nothing
    else: under each key the strings of its value. *)
Theorem gMetaOf_request method options (gMeta : Metadata) :
  gMetaOf normalizeKey validate method options = Returned gMeta →
  idempotentRequest gMeta
  = Some (bool_decide (MethodInfo.idempotency method = Some "IDEMPOTENT"%string))
  ∧ (keysNormal normalizeKey (default ∅ (GrpcOptions.meta options)) →
     ∀ j, internalRepr gMeta !! j
          = mergedValues None (default ∅ (GrpcOptions.meta options) !! j)).
Proof.
  unfold gMetaOf. cbv zeta. intros Hg. split.
  - by rewrite (encode_options _ _ _ _ _ Hg).
  - intros Hn j.
    destruct (decide (passes normalizeKey validate (default ∅ (GrpcOptions.meta options))))
      as [Hp|Hp].
    + destruct (encode_merge normalizeKey validate _ (Some (new_Metadata
                  (Some (bool_decide (MethodInfo.idempotency method
                                      = Some "IDEMPOTENT"%string))))) Hn Hp)
        as (to & Hto & Hrepr).
      rewrite Hto in Hg. injection Hg as <-. rewrite Hrepr. cbn.
      by rewrite lookup_empty.
    + by rewrite encode_refused in Hg.
Qed.


End SetupFacts.

(** ** More on the error classifier *)

Section ClassifierThrows.
Context `{platform : Platform}.

(** X8.  With the [hasOwnProperty] of [Object.prototype], [isServiceError]
    looks at the five own properties only: two objects that agree on
    these get the same answer, whatever they inherit and whatever other
    properties they have of their own. *)
Theorem isServiceError_own_properties (own own' : gmap string JsValue)
    (proto proto' : JsValue) :
  inheritsHasOwnProperty (JsObject own proto) →
  inheritsHasOwnProperty (JsObject own' proto') →
  (∀ p, p ∈ ["code"; "details"; "metadata"; "name"; "message"]%string →
        own' !! p = own !! p) →
  isServiceError (JsObject own' proto') = isServiceError (JsObject own proto).
Proof.
  intros Hinh Hinh' Hsame.
  destruct (isServiceError_object own proto Hinh) as (b & -> & Hb).
  destruct (isServiceError_object own' proto' Hinh') as (b' & -> & Hb').
  f_equal.
  rewrite !Hsame in Hb' by (repeat constructor).
  rewrite <-Hb in Hb'. destruct b, b'; try done.
  - by apply Hb'.
  - symmetry. by apply Hb'.
Qed.

(** [from.toHttp2Headers()] throws a [TypeError] on [null], on
    [undefined] and on a value without a function of this name, and never
    on a [Metadata] of the channel. *)
Lemma toHttp2Headers_at_cases :
  (∀ m, toHttp2Headers_at (JsMetadata m) = Returned (toHttp2Headers m))
  ∧ toHttp2Headers_at JsNull = Threw TypeError
  ∧ toHttp2Headers_at JsUndefined = Threw TypeError
  ∧ (∀ v, (∀ m, v ≠ JsMetadata m) →
          typeof (get v "toHttp2Headers") ≠ "function" →
          toHttp2Headers_at v = Threw TypeError).
Proof.
  repeat split.
  intros v Hm Hf. unfold toHttp2Headers_at.
  destruct v as [| | | | | | |m|own proto]; try done; try (by destruct (Hm m)).
  by destruct (get (JsObject own proto) "toHttp2Headers").
Qed.

(** X9.  On an error that is an ordinary object or no object, the first
    statement of the [error] listener throws in two cases only: the error
    is [null] or [undefined], and then a [TypeError]; or it has the shape
    of a service error and [err.metadata.toHttp2Headers()] throws, which
    is a [TypeError] when [metadata] is [null] or has no function of this
    name, and never happens when [metadata] is a [Metadata] of the
    channel. *)
Theorem classifyError_throws_iff (err : JsValue) (t : Thrown) :
  (typeof err = "object" → err ≠ JsNull → inheritsHasOwnProperty err) →
  (classifyError err = Threw t ↔
     ((err = JsNull ∨ err = JsUndefined) ∧ t = TypeError)
     ∨ (serviceErrorShape err ∧ toHttp2Headers_at (get err "metadata") = Threw t))
  ∧ (∀ m, toHttp2Headers_at (JsMetadata m) = Returned (toHttp2Headers m))
  ∧ toHttp2Headers_at JsNull = Threw TypeError
  ∧ (∀ v, (∀ m, v ≠ JsMetadata m) →
          typeof (get v "toHttp2Headers") ≠ "function" →
          toHttp2Headers_at v = Threw TypeError).
Proof.
  intros Hinh.
  destruct toHttp2Headers_at_cases as (Hmeta & Hnull & _ & Hnone).
  split; [|by repeat split].
  destruct (isServiceError_decides err Hinh) as (b & Hb & Hshape).
  destruct b.
  - assert (Hs : serviceErrorShape err) by by apply Hshape.
    rewrite (classifyError_recognised err Hb). unfold grpcMetaToRpc_at.
    split.
    + intros Ht. right. split; [done|].
      destruct (toHttp2Headers_at (get err "metadata")); [discriminate Ht|].
      cbn in Ht. by injection Ht as ->.
    + intros [[[-> | ->] _]|[_ Ht]].
      * by destruct Hs as (_ & Hn & _).
      * by destruct Hs as (Ho & _).
      * by rewrite Ht.
  - assert (Hs : ¬ serviceErrorShape err).
    { intros Hs. apply Hshape in Hs. discriminate. }
    unfold classifyError. rewrite Hb. cbn. split.
    + intros Ht. left. destruct err; try done; cbn in Ht; injection Ht as <-; auto.
    + intros [[[-> | ->] ->]|[Hs' _]]; try done.
Qed.

End ClassifierThrows.

(** ** Histories of a call *)

(** Which of the three cases of [together] holds. *)
Ltac show_together :=
  first [ left; split; reflexivity
        | right; left; eexists; split; reflexivity
        | right; right; eexists; split; reflexivity ].

Section HistoryFacts.
Context `{platform : Platform}.
Context {I O : Type}.
Implicit Types (u : UnaryCall.t O) (s : ServerStreamingCall.t O)
  (k : ClientStreamingCall.t O) (ev : ChannelEvent O) (evs : list (ChannelEvent O))
  (method : MethodInfo.t I O).

(** X10.  An error of the completion callback ends a unary and a
    client-streaming call: afterwards all four deferred results are
    settled, whether or not a value came with the error, and no event that
    follows changes any of them. *)
Theorem error_completion_is_final (err : ServiceError.t) (value : option O) evs u k :
  (settled (UnaryCall.defHeader (unary_callback (Some err) value u))
   ∧ settled (UnaryCall.defMessage (unary_callback (Some err) value u))
   ∧ settled (UnaryCall.defStatus (unary_callback (Some err) value u))
   ∧ settled (UnaryCall.defTrailer (unary_callback (Some err) value u))
   ∧ unary_results (unary_run evs (unary_callback (Some err) value u))
     = unary_results (unary_callback (Some err) value u))
  ∧ (settled (ClientStreamingCall.defHeader (clientStreaming_callback (Some err) value k))
     ∧ settled (ClientStreamingCall.defMessage (clientStreaming_callback (Some err) value k))
     ∧ settled (ClientStreamingCall.defStatus (clientStreaming_callback (Some err) value k))
     ∧ settled (ClientStreamingCall.defTrailer (clientStreaming_callback (Some err) value k))
     ∧ clientStreaming_results
         (clientStreaming_run evs (clientStreaming_callback (Some err) value k))
       = clientStreaming_results (clientStreaming_callback (Some err) value k)).
Proof.
  split.
  - assert (Hs : settled (UnaryCall.defHeader (unary_callback (Some err) value u))
                 ∧ settled (UnaryCall.defMessage (unary_callback (Some err) value u))
                 ∧ settled (UnaryCall.defStatus (unary_callback (Some err) value u))
                 ∧ settled (UnaryCall.defTrailer (unary_callback (Some err) value u))).
    { cbn. repeat split; apply rejectPending_is_settled. }
    destruct Hs as (Hh & Hm & Hst & Ht). repeat split; try done.
    destruct (unary_run_settled evs (unary_callback (Some err) value u))
      as (Rh & Rm & Rs & Rt).
    unfold unary_results. by rewrite (Rh Hh), (Rm Hm), (Rs Hst), (Rt Ht).
  - assert (Hs : settled (ClientStreamingCall.defHeader
                            (clientStreaming_callback (Some err) value k))
                 ∧ settled (ClientStreamingCall.defMessage
                              (clientStreaming_callback (Some err) value k))
                 ∧ settled (ClientStreamingCall.defStatus
                              (clientStreaming_callback (Some err) value k))
                 ∧ settled (ClientStreamingCall.defTrailer
                              (clientStreaming_callback (Some err) value k))).
    { cbn. repeat split; apply rejectPending_is_settled. }
    destruct Hs as (Hh & Hm & Hst & Ht). repeat split; try done.
    destruct (clientStreaming_run_settled evs (clientStreaming_callback (Some err) value k))
      as (Rh & Rm & Rs & Rt).
    unfold clientStreaming_results. by rewrite (Rh Hh), (Rm Hm), (Rs Hst), (Rt Ht).
Qed.

(** X11.  An error event ends a server-streaming call: when the error is
    classified, header, status and trailer are settled afterwards and the
    stream is closed, with the error if it was open and as it was
    otherwise, and no event that follows changes any of the four. *)
Theorem serverStreaming_error_is_final method (err : JsValue) (e : RpcError.t) evs s :
  classifyError err = Returned e →
  settled (ServerStreamingCall.defHeader
             (stateAfter (serverStreaming_deliver method (ErrorEvent err) s) s))
  ∧ settled (ServerStreamingCall.defStatus
               (stateAfter (serverStreaming_deliver method (ErrorEvent err) s) s))
  ∧ settled (ServerStreamingCall.defTrailer
               (stateAfter (serverStreaming_deliver method (ErrorEvent err) s) s))
  ∧ ServerStreamingCall.outStream
      (stateAfter (serverStreaming_deliver method (ErrorEvent err) s) s)
    = (if closed (ServerStreamingCall.outStream s)
       then ServerStreamingCall.outStream s
       else mkStream (pushed (ServerStreamingCall.outStream s)) (Failed e))
  ∧ serverStreaming_results
      (serverStreaming_run method evs
         (stateAfter (serverStreaming_deliver method (ErrorEvent err) s) s))
    = serverStreaming_results
        (stateAfter (serverStreaming_deliver method (ErrorEvent err) s) s).
Proof.
  intros He.
  assert (Hs : settled (ServerStreamingCall.defHeader
                 (stateAfter (serverStreaming_deliver method (ErrorEvent err) s) s))
               ∧ settled (ServerStreamingCall.defStatus
                   (stateAfter (serverStreaming_deliver method (ErrorEvent err) s) s))
               ∧ settled (ServerStreamingCall.defTrailer
                   (stateAfter (serverStreaming_deliver method (ErrorEvent err) s) s))
               ∧ closed (ServerStreamingCall.outStream
                   (stateAfter (serverStreaming_deliver method (ErrorEvent err) s) s))
                 = true).
  { cbn. unfold serverStreaming_onError. rewrite He. cbn.
    repeat split; try apply rejectPending_is_settled.
    destruct (closed (ServerStreamingCall.outStream s)) eqn:Hc; cbn; [done|].
    apply notifyError_closes. }
  destruct Hs as (Hh & Hst & Ht & Hc). repeat split; try done.
  - cbn. unfold serverStreaming_onError. rewrite He. cbn.
    destruct (closed (ServerStreamingCall.outStream s)) eqn:Hcl; cbn; [done|].
    unfold notifyError. by rewrite Hcl.
  - destruct (serverStreaming_run_settled method evs
                (stateAfter (serverStreaming_deliver method (ErrorEvent err) s) s))
      as (Rh & Rs & Rt & Ro).
    unfold serverStreaming_results. by rewrite (Rh Hh), (Rs Hst), (Rt Ht), (Ro Hc).
Qed.

Lemma serverStreaming_deliver_open method ev s :
  closed (ServerStreamingCall.outStream s) = false →
  isClosingEvent ev = false →
  ServerStreamingCall.outStream (stateAfter (serverStreaming_deliver method ev s) s)
  = mkStream (pushed (ServerStreamingCall.outStream s) ++ dataOf method [ev]) StillOpen.
Proof.
  intros Hc Hev. destruct s as [h [msgs cl] st t a n]. destruct cl; try done.
  destruct ev as [err value| | |val|err| |arg1]; try done; cbn;
    rewrite ?app_nil_r; try done.
  - by destruct a.
  - unfold serverStreaming_onData.
    destruct (MethodInfo.O_is method arg1); cbn; by rewrite ?app_nil_r.
Qed.

(** X12.  On an open stream and until an error or end event, the output
    stream of a server-streaming call holds the messages of the data events
    that pass the type guard, in the order of the events, whatever other
    events come in between; a message that fails the guard is not pushed.
    The end event then closes the stream normally with these messages. *)
Theorem serverStreaming_messages_in_order method evs s :
  closed (ServerStreamingCall.outStream s) = false →
  forallb (λ ev, negb (isClosingEvent ev)) evs = true →
  ServerStreamingCall.outStream (serverStreaming_run method evs s)
  = mkStream (pushed (ServerStreamingCall.outStream s) ++ dataOf method evs) StillOpen
  ∧ ServerStreamingCall.outStream (serverStreaming_run method (evs ++ [EndEvent]) s)
    = mkStream (pushed (ServerStreamingCall.outStream s) ++ dataOf method evs) Completed.
Proof.
  intros Hc Hev.
  assert (Hrun : ServerStreamingCall.outStream (serverStreaming_run method evs s)
                 = mkStream (pushed (ServerStreamingCall.outStream s) ++ dataOf method evs)
                            StillOpen).
  { unfold serverStreaming_run. revert s Hc.
    induction evs as [|ev evs IH]; intros s Hc.
    - cbn. rewrite app_nil_r. destruct s as [h [msgs cl] st t a n]. by destruct cl.
    - cbn in Hev. apply andb_true_iff in Hev as [Hev1%negb_true_iff Hev2].
      cbn [foldl].
      pose proof (serverStreaming_deliver_open method ev s Hc Hev1) as Hstep.
      rewrite IH; [|done|by rewrite Hstep].
      rewrite Hstep. cbn [pushed]. rewrite <-app_assoc.
      unfold dataOf. cbn. by rewrite app_nil_r. }
  split; [done|].
  unfold serverStreaming_run in *. rewrite foldl_app. cbn [foldl].
  cbn. unfold serverStreaming_onEnd. rewrite Hrun. reflexivity.
Qed.

Lemma unary_deliver_together ev u :
  together (UnaryCall.defStatus u) (UnaryCall.defTrailer u) →
  together (UnaryCall.defStatus (unary_deliver ev u))
           (UnaryCall.defTrailer (unary_deliver ev u)).
Proof.
  unfold together.
  intros [[Hs Ht]|[(v & Hs & Ht)|(e & Hs & Ht)]];
    destruct u as [h m st t a n]; cbn in Hs, Ht; subst st t;
    destruct ev as [[err|] [value|]| | |val| | |]; cbn;
    unfold unary_onStatus; case_tests; cbn; show_together.
Qed.

Lemma clientStreaming_deliver_together ev k :
  together (ClientStreamingCall.defStatus k) (ClientStreamingCall.defTrailer k) →
  together (ClientStreamingCall.defStatus (clientStreaming_deliver ev k))
           (ClientStreamingCall.defTrailer (clientStreaming_deliver ev k)).
Proof.
  unfold together.
  intros [[Hs Ht]|[(v & Hs & Ht)|(e & Hs & Ht)]];
    destruct k as [h m st t a n]; cbn in Hs, Ht; subst st t;
    destruct ev as [[err|] [value|]| | |val| | |]; cbn;
    case_tests; cbn; show_together.
Qed.

Lemma serverStreaming_deliver_together method ev s :
  together (ServerStreamingCall.defStatus s) (ServerStreamingCall.defTrailer s) →
  together
    (ServerStreamingCall.defStatus (stateAfter (serverStreaming_deliver method ev s) s))
    (ServerStreamingCall.defTrailer (stateAfter (serverStreaming_deliver method ev s) s)).
Proof.
  unfold together.
  intros [[Hs Ht]|[(v & Hs & Ht)|(e & Hs & Ht)]];
    destruct s as [h o st t a n]; cbn in Hs, Ht; subst st t;
    destruct ev as [err value| | |val|err| |arg1]; cbn;
    unfold serverStreaming_onError, serverStreaming_onData;
    try destruct (classifyError err) as [e'|];
    try destruct (MethodInfo.O_is method arg1);
    cbn; case_tests; cbn; show_together.
Qed.

(** X13.  In every call shape status and trailer go together through any
    history: both pending, both resolved from one and the same status
    event, or both rejected with one and the same error. *)
Theorem status_and_trailer_together method evs u s k :
  (together (UnaryCall.defStatus u) (UnaryCall.defTrailer u) →
   together (UnaryCall.defStatus (unary_run evs u))
            (UnaryCall.defTrailer (unary_run evs u)))
  ∧ (together (ServerStreamingCall.defStatus s) (ServerStreamingCall.defTrailer s) →
     together (ServerStreamingCall.defStatus (serverStreaming_run method evs s))
              (ServerStreamingCall.defTrailer (serverStreaming_run method evs s)))
  ∧ (together (ClientStreamingCall.defStatus k) (ClientStreamingCall.defTrailer k) →
     together (ClientStreamingCall.defStatus (clientStreaming_run evs k))
              (ClientStreamingCall.defTrailer (clientStreaming_run evs k))).
Proof.
  split; [|split].
  - unfold unary_run. revert u. induction evs as [|ev evs IH]; intros u Hu; [done|].
    cbn [foldl]. by apply IH, unary_deliver_together.
  - unfold serverStreaming_run. revert s.
    induction evs as [|ev evs IH]; intros s Hs; [done|].
    cbn [foldl]. by apply IH, serverStreaming_deliver_together.
  - unfold clientStreaming_run. revert k.
    induction evs as [|ev evs IH]; intros k Hk; [done|].
    cbn [foldl]. by apply IH, clientStreaming_deliver_together.
Qed.

(** X14.  In a unary call the message is settled once a status event with
    the code OK has been delivered, whatever came before and whatever comes
    after: the response cannot stay pending after a successful status. *)
Theorem unary_ok_status_settles_message (val : StatusObject.t)
    (before after : list (ChannelEvent O)) u :
  StatusObject.code val = GrpcStatus.OK →
  settled (UnaryCall.defMessage (unary_run (before ++ StatusEvent val :: after) u)).
Proof.
  intros Hok. unfold unary_run. rewrite foldl_app. cbn [foldl].
  change (foldl (λ c ev, unary_deliver ev c) u before) with (unary_run before u).
  set (c := unary_run before u).
  assert (Hs : settled (UnaryCall.defMessage (unary_deliver (StatusEvent val) c))).
  { cbn. destruct (decide (state (UnaryCall.defMessage c) = PENDING)) as [Hp|Hp].
    - by rewrite unary_onStatus_violation.
    - rewrite unary_onStatus_regular by tauto. done. }
  destruct (unary_run_settled after (unary_deliver (StatusEvent val) c))
    as (_ & Rm & _).
  unfold unary_run in Rm. by rewrite (Rm Hs).
Qed.

Lemma unary_deliver_results ev u u' :
  unary_results u = unary_results u' →
  unary_results (unary_deliver ev u)
  = unary_results (if isAbortEvent ev then u' else unary_deliver ev u').
Proof.
  destruct u as [h m st t a n], u' as [h' m' st' t' a' n'].
  unfold unary_results. cbn. intros [= <- <- <- <-].
  destruct ev as [[err|] [value|]| | |val| | |]; cbn;
    unfold unary_onStatus; cbn; by case_tests.
Qed.

Lemma clientStreaming_deliver_results ev k k' :
  clientStreaming_results k = clientStreaming_results k' →
  clientStreaming_results (clientStreaming_deliver ev k)
  = clientStreaming_results
      (if isAbortEvent ev then k' else clientStreaming_deliver ev k').
Proof.
  destruct k as [h m st t a n], k' as [h' m' st' t' a' n'].
  unfold clientStreaming_results. cbn. intros [= <- <- <- <-].
  destruct ev as [[err|] [value|]| | |val| | |]; cbn; by case_tests.
Qed.

Lemma serverStreaming_deliver_results method ev s s' :
  serverStreaming_results s = serverStreaming_results s' →
  serverStreaming_results (stateAfter (serverStreaming_deliver method ev s) s)
  = serverStreaming_results
      (if isAbortEvent ev then s'
       else stateAfter (serverStreaming_deliver method ev s') s').
Proof.
  destruct s as [h o st t a n], s' as [h' o' st' t' a' n'].
  unfold serverStreaming_results. cbn. intros [= <- <- <- <-].
  destruct ev as [err value| | |val|err| |arg1]; cbn;
    unfold serverStreaming_onError, serverStreaming_onData;
    try destruct (classifyError err); try destruct (MethodInfo.O_is method arg1);
    cbn; by case_tests.
Qed.

(** X15.  The abort event settles nothing: in every call shape the
    deferred results and the stream after a history are those after the
    same history without its abort events; what the signal does reaches
    the caller only through what the channel reports back. *)
Theorem aborts_settle_nothing method evs u s k :
  unary_results (unary_run evs u) = unary_results (unary_run (withoutAborts evs) u)
  ∧ serverStreaming_results (serverStreaming_run method evs s)
    = serverStreaming_results (serverStreaming_run method (withoutAborts evs) s)
  ∧ clientStreaming_results (clientStreaming_run evs k)
    = clientStreaming_results (clientStreaming_run (withoutAborts evs) k).
Proof.
  split; [|split].
  - assert (H : ∀ u u', unary_results u = unary_results u' →
              unary_results (unary_run evs u)
              = unary_results (unary_run (withoutAborts evs) u')); [|by apply H].
    unfold unary_run, withoutAborts.
    induction evs as [|ev evs IH]; intros c c' Hc; [done|].
    cbn [foldl List.filter]. pose proof (unary_deliver_results ev c c' Hc) as Hstep.
    destruct (isAbortEvent ev); cbn [negb foldl]; by apply IH.
  - assert (H : ∀ s s', serverStreaming_results s = serverStreaming_results s' →
              serverStreaming_results (serverStreaming_run method evs s)
              = serverStreaming_results
                  (serverStreaming_run method (withoutAborts evs) s'));
      [|by apply H].
    unfold serverStreaming_run, withoutAborts.
    induction evs as [|ev evs IH]; intros c c' Hc; [done|].
    cbn [foldl List.filter].
    pose proof (serverStreaming_deliver_results method ev c c' Hc) as Hstep.
    destruct (isAbortEvent ev); cbn [negb foldl]; by apply IH.
  - assert (H : ∀ k k', clientStreaming_results k = clientStreaming_results k' →
              clientStreaming_results (clientStreaming_run evs k)
              = clientStreaming_results
                  (clientStreaming_run (withoutAborts evs) k')); [|by apply H].
    unfold clientStreaming_run, withoutAborts.
    induction evs as [|ev evs IH]; intros c c' Hc; [done|].
    cbn [foldl List.filter].
    pose proof (clientStreaming_deliver_results ev c c' Hc) as Hstep.
    destruct (isAbortEvent ev); cbn [negb foldl]; by apply IH.
Qed.

(** X16.  The header is settled by the metadata event or by an error and
    by nothing else: through a history without metadata events and without
    errors it stays as it is, in every call shape, also when status, data
    and end events arrive. *)
Theorem header_waits_for_metadata method evs u s k :
  forallb (λ ev, negb (isMetadataEvent ev || carriesError ev)) evs = true →
  UnaryCall.defHeader (unary_run evs u) = UnaryCall.defHeader u
  ∧ ServerStreamingCall.defHeader (serverStreaming_run method evs s)
    = ServerStreamingCall.defHeader s
  ∧ ClientStreamingCall.defHeader (clientStreaming_run evs k)
    = ClientStreamingCall.defHeader k.
Proof.
  intros Hev. split; [|split].
  - unfold unary_run. revert u. induction evs as [|ev evs IH]; intros u; [done|].
    cbn in Hev. apply andb_true_iff in Hev as [Hev1 Hev2].
    cbn [foldl]. rewrite IH by done.
    destruct ev as [[err|] [value|]| | |val| | |]; try done; cbn;
      unfold unary_onStatus; by case_tests.
  - unfold serverStreaming_run. revert s.
    induction evs as [|ev evs IH]; intros s; [done|].
    cbn in Hev. apply andb_true_iff in Hev as [Hev1 Hev2].
    cbn [foldl]. rewrite IH by done.
    destruct ev as [[err|] value| | |val|err| |arg1]; try done; cbn;
      unfold serverStreaming_onData;
      try destruct (MethodInfo.O_is method arg1); cbn; by case_tests.
  - unfold clientStreaming_run. revert k.
    induction evs as [|ev evs IH]; intros k; [done|].
    cbn in Hev. apply andb_true_iff in Hev as [Hev1 Hev2].
    cbn [foldl]. rewrite IH by done.
    destruct ev as [[err|] [value|]| | |val| | |]; try done; cbn; by case_tests.
Qed.

End HistoryFacts.

Section CancelFacts.
Context `{platform : Platform}.
Context {I O : Type}.
Variable normalizeKey : string → string.
Variable validate : string → string → bool.

(** X17.  A call that was given no signal never cancels: its set-up
    registers no abort listener, and whatever events follow, abort events
    among them, [cancel] has not been called. *)
Theorem no_signal_no_cancel (method : MethodInfo.t I O) (input : I) (host : string)
    (meta : option RpcMetadata) (evs : list (ChannelEvent O)) :
  (∀ u, snd (unary normalizeKey validate method input (GrpcOptions.mk host meta None))
        = Returned u →
        (AbortAddEventListener
           ∉ fst (unary normalizeKey validate method input (GrpcOptions.mk host meta None)))
        ∧ UnaryCall.cancelled (unary_run evs u) = 0%nat)
  ∧ (∀ s, snd (serverStreaming normalizeKey validate method input
                 (GrpcOptions.mk host meta None)) = Returned s →
          (AbortAddEventListener
             ∉ fst (serverStreaming normalizeKey validate method input
                      (GrpcOptions.mk host meta None)))
          ∧ ServerStreamingCall.cancelled (serverStreaming_run method evs s) = 0%nat)
  ∧ (∀ k, snd (clientStreaming normalizeKey validate method
                 (GrpcOptions.mk host meta None)) = Returned k →
          (AbortAddEventListener
             ∉ fst (clientStreaming normalizeKey validate method
                      (GrpcOptions.mk host meta None)))
          ∧ ClientStreamingCall.cancelled (clientStreaming_run evs k) = 0%nat).
Proof.
  split; [|split].
  - intros u. unfold unary. cbv zeta.
    destruct (gMetaOf _ _ _ _) as [g|]; [|discriminate]. cbn.
    intros [= <-]. split; [|by rewrite unary_run_cancelled].
    rewrite !elem_of_cons, elem_of_nil. by intros [|[|[|[|]]]].
  - intros s. unfold serverStreaming. cbv zeta.
    destruct (gMetaOf _ _ _ _) as [g|]; [|discriminate]. cbn.
    intros [= <-]. split; [|by rewrite serverStreaming_run_cancelled].
    rewrite !elem_of_cons, elem_of_nil. by intros [|[|[|[|[|[|[|]]]]]]].
  - intros k. unfold clientStreaming. cbv zeta.
    destruct (gMetaOf _ _ _ _) as [g|]; [|discriminate]. cbn.
    intros [= <-]. split; [|by rewrite clientStreaming_run_cancelled].
    rewrite !elem_of_cons, elem_of_nil. by intros [|[|[|[|]]]].
Qed.

End CancelFacts.

(** ** Who settles the message, the first status, and repeated events *)

Section MessageFacts.
Context `{platform : Platform}.
Context {I O : Type}.
Implicit Types (u : UnaryCall.t O) (s : ServerStreamingCall.t O)
  (k : ClientStreamingCall.t O) (ev : ChannelEvent O) (evs : list (ChannelEvent O))
  (method : MethodInfo.t I O).

(** X20.  The message of a unary call is settled by the completion
    callback or by a status event with the code OK, and by nothing else;
    the message of a client-streaming call is settled by the completion
    callback and by nothing else, so that without a callback it stays
    pending whatever status arrives. *)
Theorem message_settled_only_by evs u k :
  (forallb (λ ev, negb (isCallback ev || isOkStatus ev)) evs = true →
   UnaryCall.defMessage (unary_run evs u) = UnaryCall.defMessage u)
  ∧ (forallb (λ ev, negb (isCallback ev)) evs = true →
     ClientStreamingCall.defMessage (clientStreaming_run evs k)
     = ClientStreamingCall.defMessage k).
Proof.
  split; [|apply clientStreaming_message_needs_callback].
  unfold unary_run. revert u. induction evs as [|ev evs IH]; intros u Hev; [done|].
  cbn in Hev. apply andb_true_iff in Hev as [Hev1 Hev2].
  cbn [foldl]. rewrite IH by done.
  destruct ev as [err value| | |val| | |]; try done; cbn.
  - by destruct (UnaryCall.abortListener u).
  - cbn in Hev1. apply negb_true_iff in Hev1.
    rewrite unary_onStatus_regular; [done|].
    intros [_ Hok]. rewrite Hok in Hev1. discriminate Hev1.
Qed.

(** X21.  The first status event of a unary call decides it when no
    message has come: if status and trailer were pending at the start and
    no status event came before, a status event with the code OK that finds
    the message pending rejects message, status and trailer, all three with
    the [DATA_LOSS] error. *)
Theorem first_status_ok_rejects_all evs (val : StatusObject.t) u :
  forallb (λ ev, negb (isStatusEvent ev)) evs = true →
  state (UnaryCall.defStatus u) = PENDING →
  state (UnaryCall.defTrailer u) = PENDING →
  StatusObject.code val = GrpcStatus.OK →
  state (UnaryCall.defMessage (unary_run evs u)) = PENDING →
  UnaryCall.defMessage (unary_onStatus val (unary_run evs u)) = Rejected expectedErrorStatus
  ∧ UnaryCall.defStatus (unary_onStatus val (unary_run evs u)) = Rejected expectedErrorStatus
  ∧ UnaryCall.defTrailer (unary_onStatus val (unary_run evs u))
    = Rejected expectedErrorStatus.
Proof.
  intros Hev Hs Ht Hok Hp.
  destruct (unary_message_pending_before_status evs u Hev) as [Hs' Ht']; [done|done|].
  rewrite unary_onStatus_violation by done. cbn.
  by rewrite !rejectPending_pending.
Qed.

(** X22.  Delivering the same settling event twice in a row is the same as
    delivering it once, in every call shape: a repeated completion
    callback, metadata, status, error or end event changes nothing. *)
Theorem settling_event_twice method ev u s k :
  isSettlingEvent ev = true →
  unary_deliver ev (unary_deliver ev u) = unary_deliver ev u
  ∧ stateAfter
      (serverStreaming_deliver method ev
         (stateAfter (serverStreaming_deliver method ev s) s))
      (stateAfter (serverStreaming_deliver method ev s) s)
    = stateAfter (serverStreaming_deliver method ev s) s
  ∧ clientStreaming_deliver ev (clientStreaming_deliver ev k)
    = clientStreaming_deliver ev k.
Proof.
  intros Hev. split; [|split].
  - by apply unary_deliver_twice.
  - by apply serverStreaming_deliver_twice.
  - by apply clientStreaming_deliver_twice.
Qed.

End MessageFacts.

(** ** The input stream of a client-streaming call *)

Section InputStreamFacts.
Context {T : Type}.
Implicit Types (w : GrpcInputStreamWrapper.t T) (ops : list (StreamOp T)).

(** X18.  A promise of [send] is rejected only when [inner.write] itself
    throws: as long as it does not, no promise that the wrapper has handed
    out is rejected, whatever the channel passes to the callbacks.  A write
    error that the channel reports to the callback fulfils the promise,
    with the error as its value. *)
Theorem send_rejects_only_on_throw ops w :
  (noWriteThrows ops = true →
   Forall (λ p, isRejected p = false) (GrpcInputStreamWrapper.promises w) →
   Forall (λ p, isRejected p = false)
          (GrpcInputStreamWrapper.promises (inStream_run ops w)))
  ∧ (∀ callback arg,
       GrpcInputStreamWrapper.promises w !! callback = Some Unsettled →
       GrpcInputStreamWrapper.promises (writeCallback callback arg w) !! callback
       = Some (Fulfilled arg)).
Proof.
  split.
  - unfold inStream_run. revert w.
    induction ops as [|op ops IH]; intros w Hops Hw; [done|].
    cbn in Hops. apply andb_true_iff in Hops as [Hop Hops].
    cbn [foldl]. apply IH; [done|].
    destruct op as [message [reason|]| |callback arg]; try done; cbn.
    + apply Forall_app. split; [done|]. by repeat constructor.
    + apply Forall_app. split; [done|]. by repeat constructor.
    + apply Forall_alter; [done|]. intros p _ Hp. by destruct p.
  - intros callback arg Hp. cbn. by rewrite list_lookup_alter_eq, Hp.
Qed.

(** X19.  Every message given to [send] is handed to the channel, once and
    in the order of the calls: the messages written are the messages sent,
    whatever callbacks and completions lie in between, and also after
    [complete], which the wrapper does not remember. *)
Theorem sends_are_written_in_order ops w :
  writtenMessages (GrpcInputStreamWrapper.inner (inStream_run ops w))
  = writtenMessages (GrpcInputStreamWrapper.inner w) ++ sentMessages ops.
Proof.
  unfold inStream_run. revert w.
  induction ops as [|op ops IH]; intros w; cbn [foldl].
  - cbn. by rewrite app_nil_r.
  - rewrite IH. unfold writtenMessages, sentMessages.
    destruct op as [message thrown| |callback arg]; cbn;
      rewrite ?List.flat_map_app; cbn; rewrite ?app_nil_r; try done.
    by rewrite <-app_assoc.
Qed.

End InputStreamFacts.

(** ** The further properties on sample inputs *)

Lemma rpcMetaToGrpc_throws_iff_witness :
  rpcMetaToGrpc channel_normalizeKey channel_validate
    {[ "accept" := Single "text"; "x trace" := Many ["t1"; "t2"] ]} None
  = Threw MetadataRefused.
Proof.
  apply (proj2 (rpcMetaToGrpc_throws_iff channel_normalizeKey channel_validate
                  {[ "accept" := Single "text"; "x trace" := Many ["t1"; "t2"] ]} None)).
  apply (bool_decide_unpack _). vm_compute. exact I.
Defined.

Lemma rpcMetaToGrpc_merges_into_base_witness :
  ∃ to,
    rpcMetaToGrpc channel_normalizeKey channel_validate
      {[ "x-trace" := Many ["t1"; "t2"]; "empty" := Many [] ]}
      (Some {| internalRepr := {[ "x-trace" := ["t0"]; "server" := ["s1"] ]};
               idempotentRequest := Some true |})
    = Returned to
    ∧ idempotentRequest to = Some true
    ∧ ∀ j, internalRepr to !! j
           = mergedValues
               (({[ "x-trace" := ["t0"]; "server" := ["s1"] ]}
                   : gmap string (list string)) !! j)
               (({[ "x-trace" := Many ["t1"; "t2"]; "empty" := Many [] ]}
                   : RpcMetadata) !! j).
Proof.
  refine (rpcMetaToGrpc_merges_into_base channel_normalizeKey channel_validate
            {[ "x-trace" := Many ["t1"; "t2"]; "empty" := Many [] ]}
            {| internalRepr := {[ "x-trace" := ["t0"]; "server" := ["s1"] ]};
               idempotentRequest := Some true |} _ _).
  - apply (bool_decide_unpack _). vm_compute. exact I.
  - apply (bool_decide_unpack _). vm_compute. exact I.
Defined.

Example rpcMetaToGrpc_merges_sample :
  rpcMetaToGrpc channel_normalizeKey channel_validate
    {[ "x-trace" := Many ["t1"; "t2"]; "empty" := Many [] ]}
    (Some {| internalRepr := {[ "x-trace" := ["t0"]; "server" := ["s1"] ]};
             idempotentRequest := Some true |})
  = Returned {| internalRepr := {[ "x-trace" := ["t0"; "t1"; "t2"]; "server" := ["s1"] ]};
                idempotentRequest := Some true |}.
Proof. by vm_compute. Qed.

Lemma gMetaOf_request_witness :
  idempotentRequest
    {| internalRepr := {[ "x-trace" := ["t1"] ]}; idempotentRequest := Some true |}
  = Some (bool_decide (MethodInfo.idempotency sampleMethod = Some "IDEMPOTENT"%string)).
Proof.
  apply (gMetaOf_request channel_normalizeKey channel_validate sampleMethod
           (sampleOptions None)
           {| internalRepr := {[ "x-trace" := ["t1"] ]}; idempotentRequest := Some true |}).
  by vm_compute.
Defined.


Lemma encode_decode_witness :
  rpcMetaToGrpc channel_normalizeKey channel_validate
    (grpcMetaToRpc
       {| internalRepr := {[ "server" := ["s1"; "s2"]; "x-trace" := ["t1"] ]};
          idempotentRequest := Some true |}) None
  = Returned {| internalRepr := {[ "server" := ["s1"; "s2"]; "x-trace" := ["t1"] ]};
                idempotentRequest := None |}.
Proof.
  refine (encode_decode channel_normalizeKey channel_validate compact
            {| internalRepr := {[ "server" := ["s1"; "s2"]; "x-trace" := ["t1"] ]};
               idempotentRequest := Some true |} samplePlatform_renders _ _).
  - apply (bool_decide_unpack _). vm_compute. exact I.
  - reflexivity.
Defined.

Lemma roundTrip_idempotent_witness :
  ∃ m, roundTrip channel_normalizeKey channel_validate
         {[ "accept" := Single "text"; "empty" := Many [] ]} = Returned m
       ∧ roundTrip channel_normalizeKey channel_validate m = Returned m.
Proof.
  apply (roundTrip_idempotent channel_normalizeKey channel_validate compact
           {[ "accept" := Single "text"; "empty" := Many [] ]}).
  - exact samplePlatform_renders.
  - apply (bool_decide_unpack _). vm_compute. exact I.
Defined.

(** An [Error] that the channel has extended into a service error with all
    five properties its own, and with a [stack] besides, is answered like
    the plain object with the five properties. *)
Lemma isServiceError_own_properties_witness :
  isServiceError
    (JsObject (<[ "stack" := JsString "Error: 14 UNAVAILABLE" ]> sampleServiceErrorProperties)
              Error_prototype)
  = isServiceError sampleJsServiceError.
Proof.
  apply (isServiceError_own_properties sampleServiceErrorProperties
           (<[ "stack" := JsString "Error: 14 UNAVAILABLE" ]> sampleServiceErrorProperties)
           Object_prototype Error_prototype).
  - reflexivity.
  - reflexivity.
  - intros p Hp.
    repeat (apply elem_of_cons in Hp as [->|Hp]; [reflexivity|]).
    by apply elem_of_nil in Hp.
Defined.

(** A service error whose [metadata] is a plain object without the method
    makes the listener throw. *)
Lemma classifyError_throws_iff_witness :
  classifyError
    (JsObject {[ "code" := JsNumber (Number_of 14); "details" := JsString "unavailable";
                 "metadata" := JsObject ∅ Object_prototype; "name" := JsString "Error";
                 "message" := JsString "unavailable" ]} Object_prototype)
  = Threw TypeError.
Proof.
  destruct (classifyError_throws_iff
              (JsObject {[ "code" := JsNumber (Number_of 14); "details" := JsString "unavailable";
                           "metadata" := JsObject ∅ Object_prototype;
                           "name" := JsString "Error";
                           "message" := JsString "unavailable" ]} Object_prototype)
              TypeError) as [Hiff _].
  - reflexivity.
  - apply Hiff. right. split; [|reflexivity].
    repeat split; [discriminate|].
    exists (JsNumber (Number_of 14)), (JsString "unavailable"), (JsObject ∅ Object_prototype),
      (JsString "Error"), (JsString "unavailable").
    repeat split.
Defined.

(** A service error whose [metadata] brings a method [toHttp2Headers] of
    its own is translated with what the method returns; on the platform
    of the samples that is an object without properties. *)
Example classifyError_foreign_metadata :
  classifyError
    (JsObject {[ "code" := JsNumber (Number_of 14); "details" := JsString "unavailable";
                 "metadata" := JsObject {[ "toHttp2Headers" := JsFunction ]} Object_prototype;
                 "name" := JsString "Error";
                 "message" := JsString "unavailable" ]} Object_prototype)
  = Returned (RpcError.mk (JsString "unavailable") (Some "UNAVAILABLE") (Some ∅)).
Proof. by vm_compute. Qed.

(** The loop of [grpcMetaToRpc] on a header object with a number, with an
    [undefined] and with the name [__proto__]. *)
Example grpcMetaToRpc_headers_sample :
  grpcMetaToRpc_headers
    {[ "content-length" := HNumber (200%N ↾ eq_refl : safeInteger);
       "x-gone" := HUndefined;
       "__proto__" := HArray ["a"; "b"];
       "server" := HString "s1" ]}
  = {[ "content-length" := Single "200"; "server" := Single "s1" ]}.
Proof. by vm_compute. Qed.

Lemma serverStreaming_error_is_final_witness :
  serverStreaming_results
    (serverStreaming_run sampleMethod
       [StatusEvent sampleStatusOK; DataEvent "late"%string; EndEvent;
        MetadataEvent sampleHeaders]
       (stateAfter
          (serverStreaming_deliver sampleMethod (ErrorEvent samplePlainError)
             sampleServerStreamingFresh) sampleServerStreamingFresh))
  = serverStreaming_results
      (stateAfter
         (serverStreaming_deliver sampleMethod (ErrorEvent samplePlainError)
            sampleServerStreamingFresh) sampleServerStreamingFresh).
Proof.
  apply (serverStreaming_error_is_final sampleMethod samplePlainError
           (RpcError.mk (JsString "connection reset") None None)).
  reflexivity.
Defined.

Lemma serverStreaming_messages_in_order_witness :
  ServerStreamingCall.outStream
    (serverStreaming_run sampleMethod
       ([DataEvent "A"%string; MetadataEvent sampleHeaders; DataEvent "B"%string;
         StatusEvent sampleStatusOK] ++ [EndEvent])
       sampleServerStreamingFresh)
  = mkStream ([] ++ ["A"; "B"]%string) Completed.
Proof.
  apply (serverStreaming_messages_in_order sampleMethod
           [DataEvent "A"%string; MetadataEvent sampleHeaders; DataEvent "B"%string;
            StatusEvent sampleStatusOK]
           sampleServerStreamingFresh).
  - reflexivity.
  - reflexivity.
Defined.

Lemma status_and_trailer_together_witness :
  together
    (UnaryCall.defStatus
       (unary_run [StatusEvent sampleStatusNotFound; Callback (Some sampleServiceError) None]
          sampleUnaryFresh))
    (UnaryCall.defTrailer
       (unary_run [StatusEvent sampleStatusNotFound; Callback (Some sampleServiceError) None]
          sampleUnaryFresh)).
Proof.
  apply (status_and_trailer_together sampleMethod
           [StatusEvent sampleStatusNotFound; Callback (Some sampleServiceError) None]
           sampleUnaryFresh sampleServerStreamingFresh sampleClientStreamingFresh).
  left. split; reflexivity.
Defined.

Lemma unary_ok_status_settles_message_witness :
  settled
    (UnaryCall.defMessage
       (unary_run ([MetadataEvent sampleHeaders] ++ StatusEvent sampleStatusOK :: [AbortEvent])
          sampleUnaryFresh)).
Proof.
  apply (unary_ok_status_settles_message sampleStatusOK
           [MetadataEvent sampleHeaders] [AbortEvent] sampleUnaryFresh).
  reflexivity.
Defined.

Lemma header_waits_for_metadata_witness :
  UnaryCall.defHeader
    (unary_run [StatusEvent sampleStatusOK; Callback None (Some "reply"%string); AbortEvent]
       sampleUnaryFresh)
  = UnaryCall.defHeader sampleUnaryFresh.
Proof.
  apply (header_waits_for_metadata sampleMethod
           [StatusEvent sampleStatusOK; Callback None (Some "reply"%string); AbortEvent]
           sampleUnaryFresh sampleServerStreamingFresh sampleClientStreamingFresh).
  reflexivity.
Defined.

Lemma no_signal_no_cancel_witness :
  UnaryCall.cancelled
    (unary_run [AbortEvent; StatusEvent sampleStatusOK; AbortEvent]
       (UnaryCall.mk (O:=string) Pending Pending Pending Pending false 0))
  = 0%nat.
Proof.
  destruct (no_signal_no_cancel (I:=string) channel_normalizeKey channel_validate
              sampleMethod "in" "localhost:50051" (Some {[ "x-trace" := Single "t1" ]})
              [AbortEvent; StatusEvent sampleStatusOK; AbortEvent]) as (H & _).
  destruct (H (UnaryCall.mk Pending Pending Pending Pending false 0)) as [_ ->].
  - by vm_compute.
  - reflexivity.
Defined.

Lemma send_rejects_only_on_throw_witness :
  Forall (λ p, isRejected p = false)
    (GrpcInputStreamWrapper.promises
       (inStream_run
          [Send "a"%string None; Send "b"%string None;
           WriteCallback 1 (JsObject {[ "message" := JsString "write failed" ]} JsNull);
           Complete; WriteCallback 0 JsUndefined]
          new_GrpcInputStreamWrapper)).
Proof.
  apply (send_rejects_only_on_throw
           [Send "a"%string None; Send "b"%string None;
            WriteCallback 1 (JsObject {[ "message" := JsString "write failed" ]} JsNull);
            Complete; WriteCallback 0 JsUndefined]
           new_GrpcInputStreamWrapper).
  - reflexivity.
  - constructor.
Defined.

(** The wrapper on a sample: a write error fulfils the promise of its
    [send], and a [send] whose [inner.write] throws is rejected. *)
Example inStream_sample :
  inStream_run
    [Send "a"%string None; Send "b"%string (Some (JsString "threw"));
     WriteCallback 0 (JsString "write failed"); Complete]
    new_GrpcInputStreamWrapper
  = GrpcInputStreamWrapper.mk
      [InnerWrite "a"%string 0; InnerWrite "b"%string 1; InnerEnd]
      [Fulfilled (JsString "write failed"); RejectedWith (JsString "threw");
       Fulfilled JsUndefined].
Proof. reflexivity. Qed.

Lemma message_settled_only_by_witness :
  ClientStreamingCall.defMessage
    (clientStreaming_run
       [MetadataEvent sampleHeaders; StatusEvent sampleStatusOK; AbortEvent]
       sampleClientStreamingFresh)
  = Pending.
Proof.
  apply (proj2 (message_settled_only_by
                  [MetadataEvent sampleHeaders; StatusEvent sampleStatusOK; AbortEvent]
                  sampleUnaryFresh sampleClientStreamingFresh)).
  reflexivity.
Defined.

Lemma first_status_ok_rejects_all_witness :
  UnaryCall.defMessage
    (unary_onStatus sampleStatusOK
       (unary_run [MetadataEvent sampleHeaders; AbortEvent] sampleUnaryFresh))
  = Rejected expectedErrorStatus
  ∧ UnaryCall.defStatus
      (unary_onStatus sampleStatusOK
         (unary_run [MetadataEvent sampleHeaders; AbortEvent] sampleUnaryFresh))
    = Rejected expectedErrorStatus
  ∧ UnaryCall.defTrailer
      (unary_onStatus sampleStatusOK
         (unary_run [MetadataEvent sampleHeaders; AbortEvent] sampleUnaryFresh))
    = Rejected expectedErrorStatus.
Proof.
  apply (first_status_ok_rejects_all [MetadataEvent sampleHeaders; AbortEvent]
           sampleStatusOK sampleUnaryFresh); reflexivity.
Defined.

Lemma settling_event_twice_witness :
  unary_deliver (StatusEvent sampleStatusOK)
    (unary_deliver (StatusEvent sampleStatusOK) sampleUnaryFresh)
  = unary_deliver (StatusEvent sampleStatusOK) sampleUnaryFresh.
Proof.
  apply (settling_event_twice sampleMethod (StatusEvent sampleStatusOK)
           sampleUnaryFresh sampleServerStreamingFresh sampleClientStreamingFresh).
  reflexivity.
Defined.
